(** * nunchuck-wiringpi: the [NunchuckReader] driver

    A shallow embedding of [src/include/nunchuckreader.h] and the
    properties of its initialisation handshake, timed fetch, bit-level
    decode and decrypt transform.

    Conventions.  A C++ [int] is a [Z]; the two operations of the header
    that can leave the 32-bit range ([<<] and [+]) are wrapped by
    [int32], as the target does where C++ leaves the overflow undefined;
    on bytes neither of them overflows.  The I2C bus and the clock are
    an explicit world that every member function threads; a member
    function is a computation over the object ([this]) and the world
    that returns a value, throws, or runs into undefined behaviour. *)

From Stdlib Require Import ZArith Lia Bool.
From stdpp Require Import base list.

Local Open Scope Z_scope.

(** ** Machine integers *)

(** Two's complement reading of the low 32 bits of [z]. *)
Definition int32 (z : Z) : Z := (z + 2 ^ 31) mod 2 ^ 32 - 2 ^ 31.

(** [a << n], [a >> n], [a & b], [a | b], [a ^ b] and [a + b] on [int]. *)
Definition shl (a n : Z) : Z := int32 (Z.shiftl a n).
Definition shr (a n : Z) : Z := Z.shiftr a n.
Definition band (a b : Z) : Z := Z.land a b.
Definition bor (a b : Z) : Z := Z.lor a b.
Definition bxor (a b : Z) : Z := Z.lxor a b.
Definition add (a b : Z) : Z := int32 (a + b).

(** A value that fits an unsigned byte. *)
Definition is_byte (b : Z) : Prop := 0 <= b <= 255.

(** ** Data *)

(** [struct RawNunchuckData]. *)
Record RawNunchuckData := {
  joystickPositionX : Z;
  joystickPositionY : Z;
  accelerationOnX : Z;
  accelerationOnY : Z;
  accelerationOnZ : Z;
  buttonCState : Z;
  buttonZState : Z
}.

(** [enum InitializationMode]: an unscoped enumeration, so a value of
    the underlying integer type; the constructor's [switch] has a
    [default] branch for the values that are no enumerator. *)
Definition InitializationMode := Z.
Definition ENCRYPTED : InitializationMode := 0.
Definition NOT_ENCRYPTED : InitializationMode := 1.

Definition NUNCHUCK_I2C_ADDRESS : Z := 0x52.
Definition MINIMUN_CIRCUIT_ADAPTATION_WAIT_MICROSECONDS : Z := 300.
Definition DEFAULT_CIRCUIT_ADAPTATION_WAIT_MICROSECONDS : Z := 500.

(** The private data members of [class NunchuckReader]. *)
Record NunchuckReader := {
  encyptedModeEnabled : bool;
  i2CPortFileDescriptor : Z;
  circuitAdaptationWaitMicrosecons : Z
}.

(** Modelled from the spec: [nunchuckdata.h], which declares the
    classes [NunchuckJoystick], [NunchuckAccelerometer], [NunchuckButton]
    and [NunchuckData], is not among the sources.  The spec describes
    them as plain data containers (Joystick(x,y), Accelerometer(x,y,z),
    ButtonState(c,z)) and the structured reading as a pure relabeling of
    the raw one, so each is a record that stores the arguments of its
    constructor as they are given.  The constructor of [NunchuckData] is
    called with the joystick, the accelerometer, the Z button and the C
    button, in that order. *)
Record NunchuckJoystick := {
  joystick_x : Z;
  joystick_y : Z
}.

Record NunchuckAccelerometer := {
  accelerometer_x : Z;
  accelerometer_y : Z;
  accelerometer_z : Z
}.

Record NunchuckButton := {
  button_state : Z
}.

Record NunchuckData := {
  data_joystick : NunchuckJoystick;
  data_accelerometer : NunchuckAccelerometer;
  data_buttonZ : NunchuckButton;
  data_buttonC : NunchuckButton
}.

(** A reader as the constructor leaves it. *)
Definition reader (encrypted : bool) (fd wait : Z) : NunchuckReader :=
  {| encyptedModeEnabled := encrypted;
     i2CPortFileDescriptor := fd;
     circuitAdaptationWaitMicrosecons := wait |}.

(** ** Pure member functions *)

(** [int decrypt(const int readByte)]. *)
Definition decrypt (readByte : Z) : Z := add (bxor readByte 0x17) 0x17.

(** [RawNunchuckData parseDeviceBuffer(int *readBuffer)].  The buffer is
    a list of cells; reading a cell that the buffer does not have is
    undefined in C++ and [None] here. *)
Definition parseDeviceBuffer (readBuffer : list Z) : option RawNunchuckData :=
  joyX ← readBuffer !! 0%nat;
  joyY ← readBuffer !! 1%nat;
  b2 ← readBuffer !! 2%nat;
  b3 ← readBuffer !! 3%nat;
  b4 ← readBuffer !! 4%nat;
  b5 ← readBuffer !! 5%nat;
  let rawAccelX := bor (shl b2 2) (shr (band b5 0xc0) 6) in
  let rawAccelY := bor (shl b3 2) (shr (band b5 0x30) 4) in
  let rawAccelZ := bor (shl b4 2) (shr (band b5 0x0c) 2) in
  let c := shr (band b5 0x02) 1 in
  let z := band b5 0x01 in
  Some {| joystickPositionX := joyX; joystickPositionY := joyY;
          accelerationOnX := rawAccelX; accelerationOnY := rawAccelY;
          accelerationOnZ := rawAccelZ;
          buttonCState := c; buttonZState := z |}.

(** The decode as the specification writes it: the fields of a raw
    reading as formulas over the six cells of a frame, with the
    operators of [Z] in place of those of [int]. *)
Definition decoded (b0 b1 b2 b3 b4 b5 : Z) : RawNunchuckData :=
  {| joystickPositionX := b0;
     joystickPositionY := b1;
     accelerationOnX := Z.lor (Z.shiftl b2 2) (Z.shiftr (Z.land b5 0xC0) 6);
     accelerationOnY := Z.lor (Z.shiftl b3 2) (Z.shiftr (Z.land b5 0x30) 4);
     accelerationOnZ := Z.lor (Z.shiftl b4 2) (Z.shiftr (Z.land b5 0x0C) 2);
     buttonCState := Z.shiftr (Z.land b5 0x02) 1;
     buttonZState := Z.land b5 0x01 |}.

(** ** The bus and the clock *)

(** What the driver does to its environment, in program order.  A call
    of a bus function is recorded with the value it returned. *)
Inductive BusEvent :=
| I2CSetup (devId result : Z)
| I2CWriteReg8 (fd reg data result : Z)
| I2CWrite (fd data result : Z)
| I2CRead (fd result : Z)
| SleepFor (microseconds : Z).

(** The bus events of one fetch by the reader [r]: the request, the
    wait, and the reads that returned [rs]. *)
Definition fetch_events (r : NunchuckReader) (written : Z) (rs : list Z)
    : list BusEvent :=
  I2CWrite (i2CPortFileDescriptor r) 0x00 written
  :: SleepFor (circuitAdaptationWaitMicrosecons r)
  :: map (I2CRead (i2CPortFileDescriptor r)) rs.

(** The functions of [wiringPiI2C.h] (or of the mocked header that
    replaces it off the Raspberry Pi) that the driver calls.  They are
    not part of the driver and are taken as a parameter: any device
    state [Dev] with any behaviour.  Each returns an [int]; a negative
    result reports a failure.  [elapse] is what a delay of the given
    number of microseconds does to the device. *)
Class WiringPi (Dev : Type) := {
  wiringPiI2CSetup : Z -> Dev -> Z * Dev;
  wiringPiI2CWriteReg8 : Z -> Z -> Z -> Dev -> Z * Dev;
  wiringPiI2CWrite : Z -> Z -> Dev -> Z * Dev;
  wiringPiI2CRead : Z -> Dev -> Z * Dev;
  elapse : Z -> Dev -> Dev
}.

(** What a [throw] of the header carries: the message on the minimum
    wait (line 51), the message on the I2C setup (line 126) and
    ["Invalid initialization mode"] (line 68). *)
Inductive Thrown :=
| InvalidConfigurationError
| TransportError
| InvalidModeError.

(** How a call ends. [Undefined] is an access outside an array. *)
Inductive Outcome (A : Type) :=
| Returns (a : A)
| Throws (e : Thrown)
| Undefined.
Arguments Returns {A} a.
Arguments Throws {A} e.
Arguments Undefined {A}.

Section Driver.

Context {Dev : Type} `{WiringPi Dev}.

Record World := {
  device : Dev;
  trace : list BusEvent
}.

(** The object a member function runs on, and the world around it. *)
Record State := {
  this : NunchuckReader;
  world : World
}.

(** The world [w] after the device has become [d] and the trace has
    grown by [events], and the same for the world of a state. *)
Definition extend (w : World) (d : Dev) (events : list BusEvent) : World :=
  {| device := d; trace := trace w ++ events |}.

Definition after (s : State) (d : Dev) (events : list BusEvent) : State :=
  {| this := this s; world := extend (world s) d events |}.

Definition M (A : Type) : Type := State -> Outcome A * State.

#[export] Instance M_ret : MRet M := fun A a s => (Returns a, s).
#[export] Instance M_bind : MBind M := fun A B f m s =>
  match m s with
  | (Returns a, s') => f a s'
  | (Throws e, s') => (Throws e, s')
  | (Undefined, s') => (Undefined, s')
  end.

Definition throw {A} (e : Thrown) : M A := fun s => (Throws e, s).
Definition undefined {A} : M A := fun s => (Undefined, s).

(** Reading and assigning a data member. *)
Definition member {A} (field : NunchuckReader -> A) : M A :=
  fun s => (Returns (field (this s)), s).
Definition assign (update : NunchuckReader -> NunchuckReader) : M unit :=
  fun s => (Returns tt, {| this := update (this s); world := world s |}).

Definition set_encyptedModeEnabled (v : bool) (r : NunchuckReader) :=
  {| encyptedModeEnabled := v;
     i2CPortFileDescriptor := i2CPortFileDescriptor r;
     circuitAdaptationWaitMicrosecons := circuitAdaptationWaitMicrosecons r |}.
Definition set_i2CPortFileDescriptor (v : Z) (r : NunchuckReader) :=
  {| encyptedModeEnabled := encyptedModeEnabled r;
     i2CPortFileDescriptor := v;
     circuitAdaptationWaitMicrosecons := circuitAdaptationWaitMicrosecons r |}.
Definition set_circuitAdaptationWaitMicrosecons (v : Z) (r : NunchuckReader) :=
  {| encyptedModeEnabled := encyptedModeEnabled r;
     i2CPortFileDescriptor := i2CPortFileDescriptor r;
     circuitAdaptationWaitMicrosecons := v |}.

(** A call of a bus function: the device answers and moves on, and the
    call is appended to the trace. *)
Definition bus (op : Dev -> Z * Dev) (event : Z -> BusEvent) : M Z :=
  fun s =>
    let (result, d) := op (device (world s)) in
    (Returns result,
     {| this := this s;
        world := {| device := d;
                    trace := trace (world s) ++ [event result] |} |}).

Definition callI2CSetup (devId : Z) : M Z :=
  bus (wiringPiI2CSetup devId) (I2CSetup devId).
Definition callI2CWriteReg8 (fd reg data : Z) : M Z :=
  bus (wiringPiI2CWriteReg8 fd reg data) (I2CWriteReg8 fd reg data).
Definition callI2CWrite (fd data : Z) : M Z :=
  bus (wiringPiI2CWrite fd data) (I2CWrite fd data).
Definition callI2CRead (fd : Z) : M Z :=
  bus (wiringPiI2CRead fd) (I2CRead fd).

(** [std::this_thread::sleep_for(std::chrono::microseconds(n))]. *)
Definition sleep_for (microseconds : Z) : M unit :=
  fun s =>
    (Returns tt,
     {| this := this s;
        world := {| device := elapse microseconds (device (world s));
                    trace := trace (world s) ++ [SleepFor microseconds] |} |}).

(** [readBuffer[i] = v]. *)
Definition store (i : nat) (v : Z) (readBuffer : list Z) : M (list Z) :=
  if decide (i < length readBuffer)%nat
  then mret (<[i:=v]> readBuffer)
  else undefined.

(** A counted [for] loop over the indices [indices], threading the
    array the body writes to. *)
Fixpoint for_each (indices : list nat) (body : nat -> list Z -> M (list Z))
    (array : list Z) : M (list Z) :=
  match indices with
  | [] => mret array
  | i :: rest => array' ← body i array; for_each rest body array'
  end.

(** ** Member functions of [NunchuckReader] *)

Definition initI2C : M unit :=
  fd ← callI2CSetup NUNCHUCK_I2C_ADDRESS;
  assign (set_i2CPortFileDescriptor fd);;
  fd' ← member i2CPortFileDescriptor;
  if fd' <? 0 then throw TransportError else mret tt.

Definition initWithEncryption : M unit :=
  fd ← member i2CPortFileDescriptor;
  callI2CWriteReg8 fd 0x40 0x00;;
  wait ← member circuitAdaptationWaitMicrosecons;
  sleep_for wait;;
  assign (set_encyptedModeEnabled true).

Definition initWithoutEncryption : M unit :=
  fd ← member i2CPortFileDescriptor;
  callI2CWriteReg8 fd 0xF0 0x55;;
  fd' ← member i2CPortFileDescriptor;
  callI2CWriteReg8 fd' 0xFB 0x00;;
  wait ← member circuitAdaptationWaitMicrosecons;
  sleep_for wait;;
  assign (set_encyptedModeEnabled false).

(** [NunchuckReader(const int, const InitializationMode)]. *)
Definition NunchuckReader_ctor (circuitAdaptationWaitMicroseconds : Z)
    (initializationMode : InitializationMode) : M unit :=
  (if circuitAdaptationWaitMicroseconds
        <? MINIMUN_CIRCUIT_ADAPTATION_WAIT_MICROSECONDS
   then throw InvalidConfigurationError else mret tt);;
  assign (set_circuitAdaptationWaitMicrosecons circuitAdaptationWaitMicroseconds);;
  initI2C;;
  if initializationMode =? ENCRYPTED then initWithEncryption
  else if initializationMode =? NOT_ENCRYPTED then initWithoutEncryption
  else throw InvalidModeError.

(** [explicit NunchuckReader(const InitializationMode)], which
    delegates to the constructor above. *)
Definition NunchuckReader_ctor_default
    (initializationMode : InitializationMode) : M unit :=
  NunchuckReader_ctor DEFAULT_CIRCUIT_ADAPTATION_WAIT_MICROSECONDS
    initializationMode.

(** Construction of an object: the constructor runs on storage whose
    content [storage] is indeterminate; the caller gets the object when
    the constructor returns and no object when it throws. *)
Definition construct (ctor : M unit) (storage : NunchuckReader) (w : World)
    : Outcome NunchuckReader * World :=
  match ctor {| this := storage; world := w |} with
  | (Returns _, s) => (Returns (this s), world s)
  | (Throws e, s) => (Throws e, world s)
  | (Undefined, s) => (Undefined, world s)
  end.

Definition isEncryptedModeEnabled : M bool :=
  member encyptedModeEnabled.

(** The body of the loop of [fetchDeviceBuffer]:
    [readBuffer[i] = wiringPiI2CRead(i2CPortFileDescriptor)]. *)
Definition read_into (i : nat) (buffer : list Z) : M (list Z) :=
  fd' ← member i2CPortFileDescriptor;
  v ← callI2CRead fd';
  store i v buffer.

Definition fetchDeviceBuffer (readBuffer : list Z) : M (list Z) :=
  fd ← member i2CPortFileDescriptor;
  callI2CWrite fd 0x00;;
  wait ← member circuitAdaptationWaitMicrosecons;
  sleep_for wait;;
  for_each (seq 0 6) read_into readBuffer.

(** [int readBuffer[6]] is a local array that is not initialised;
    [fetchDeviceBuffer] writes each of its cells before
    [parseDeviceBuffer] reads them (see [fetchDeviceBuffer_overwrites]),
    so its initial content, here six zeros, reaches no result. *)
Definition readRawData : M RawNunchuckData :=
  let readBuffer := replicate 6 0 in
  readBuffer' ← fetchDeviceBuffer readBuffer;
  match parseDeviceBuffer readBuffer' with
  | Some rawData => mret rawData
  | None => undefined
  end.

Definition readDeviceValues : M NunchuckData :=
  rawData ← readRawData;
  let joystick :=
    Build_NunchuckJoystick (joystickPositionX rawData)
                           (joystickPositionY rawData) in
  let accelerometer :=
    Build_NunchuckAccelerometer (accelerationOnX rawData)
                                (accelerationOnY rawData)
                                (accelerationOnZ rawData) in
  let buttonC := Build_NunchuckButton (buttonCState rawData) in
  let buttonZ := Build_NunchuckButton (buttonZState rawData) in
  mret (Build_NunchuckData joystick accelerometer buttonZ buttonC).

(** ** Clients *)

(** The public operations a caller can invoke on a constructed reader. *)
Inductive Call :=
| CallIsEncryptedModeEnabled
| CallReadDeviceValues
| CallReadRawData.

Inductive Answer :=
| AnswerBool (b : bool)
| AnswerData (d : NunchuckData)
| AnswerRaw (d : RawNunchuckData).

Definition perform (c : Call) : M Answer :=
  match c with
  | CallIsEncryptedModeEnabled => b ← isEncryptedModeEnabled; mret (AnswerBool b)
  | CallReadDeviceValues => d ← readDeviceValues; mret (AnswerData d)
  | CallReadRawData => d ← readRawData; mret (AnswerRaw d)
  end.

(** A client that performs the calls of a list one after the other and
    stops at the first that does not return. *)
Fixpoint perform_all (calls : list Call) : M (list Answer) :=
  match calls with
  | [] => mret []
  | c :: rest =>
      a ← perform c;
      answers ← perform_all rest;
      mret (a :: answers)
  end.

(** Whether a call fetches a frame from the device. *)
Definition is_read (c : Call) : bool :=
  match c with
  | CallIsEncryptedModeEnabled => false
  | CallReadDeviceValues | CallReadRawData => true
  end.

End Driver.

Arguments World Dev : clear implicits.
Arguments State Dev : clear implicits.

(** ** A scripted device *)

(** A device for tests: [wiringPiI2CSetup] answers [setupResult], every
    write succeeds, and the reads answer the values of [incoming] one by
    one, then fail with [-1].  A negative value in [incoming] is a read
    that fails. *)
Record Script := {
  setupResult : Z;
  incoming : list Z
}.

#[export] Instance Script_WiringPi : WiringPi Script := {|
  wiringPiI2CSetup := fun _ d => (setupResult d, d);
  wiringPiI2CWriteReg8 := fun _ _ _ d => (0, d);
  wiringPiI2CWrite := fun _ _ d => (0, d);
  wiringPiI2CRead := fun _ d =>
    match incoming d with
    | [] => (-1, d)
    | v :: rest => (v, {| setupResult := setupResult d; incoming := rest |})
    end;
  elapse := fun _ d => d
|}.

(** The world in which nothing has happened yet and the device will
    answer the reads with [bytes]. *)
Definition fresh (fd : Z) (bytes : list Z) : World Script :=
  {| device := {| setupResult := fd; incoming := bytes |}; trace := [] |}.

(** * Properties *)

(** ** Machine integers on bytes *)

Lemma int32_small (z : Z) : - 2 ^ 31 <= z < 2 ^ 31 -> int32 z = z.
Proof.
  intros Hz. unfold int32.
  rewrite Z.mod_small by lia. lia.
Qed.

(** A non-negative number whose bits from [n] upwards are all clear is
    below [2 ^ n], and conversely. *)
Lemma below_pow2_of_bits (x n : Z) :
  0 <= n -> 0 <= x ->
  (forall k, n <= k -> Z.testbit x k = false) -> x < 2 ^ n.
Proof.
  intros Hn Hx Hbits.
  destruct (Z.eq_dec x 0) as [->|Hne].
  - apply Z.pow_pos_nonneg; lia.
  - apply Z.log2_lt_pow2; [lia|].
    destruct (Z_lt_le_dec (Z.log2 x) n) as [Hlt|Hge]; [exact Hlt|].
    specialize (Hbits _ Hge).
    rewrite Z.bit_log2 in Hbits by lia. discriminate.
Qed.

Lemma bits_of_below_pow2 (x n k : Z) :
  0 <= x < 2 ^ n -> n <= k -> Z.testbit x k = false.
Proof.
  intros [Hx Hlt] Hk.
  destruct (Z.eq_dec x 0) as [->|Hne]; [apply Z.bits_0|].
  apply Z.bits_above_log2; [lia|].
  assert (Z.log2 x < n) by (apply Z.log2_lt_pow2; lia). lia.
Qed.

Lemma bor_below (a b n : Z) :
  0 <= n -> 0 <= a < 2 ^ n -> 0 <= b < 2 ^ n -> 0 <= bor a b < 2 ^ n.
Proof.
  intros Hn Ha Hb. unfold bor.
  assert (0 <= Z.lor a b) by (apply Z.lor_nonneg; lia).
  split; [assumption|].
  apply below_pow2_of_bits; try assumption.
  intros k Hk. rewrite Z.lor_spec.
  rewrite (bits_of_below_pow2 a n k), (bits_of_below_pow2 b n k) by assumption.
  reflexivity.
Qed.

Lemma bxor_below (a b n : Z) :
  0 <= n -> 0 <= a < 2 ^ n -> 0 <= b < 2 ^ n -> 0 <= bxor a b < 2 ^ n.
Proof.
  intros Hn Ha Hb. unfold bxor.
  assert (0 <= Z.lxor a b) by (apply Z.lxor_nonneg; lia).
  split; [assumption|].
  apply below_pow2_of_bits; try assumption.
  intros k Hk. rewrite Z.lxor_spec.
  rewrite (bits_of_below_pow2 a n k), (bits_of_below_pow2 b n k) by assumption.
  reflexivity.
Qed.

(** Masking with a non-negative [mask] below [2 ^ n]. *)
Lemma band_below (a mask n : Z) :
  0 <= n -> 0 <= mask < 2 ^ n -> 0 <= band a mask < 2 ^ n.
Proof.
  intros Hn Hm. unfold band.
  assert (0 <= Z.land a mask) by (apply Z.land_nonneg; lia).
  split; [assumption|].
  apply below_pow2_of_bits; try assumption.
  intros k Hk. rewrite Z.land_spec.
  rewrite (bits_of_below_pow2 mask n k) by assumption.
  apply andb_false_r.
Qed.

Lemma shr_below (a n k : Z) :
  0 <= k <= n -> 0 <= a < 2 ^ n -> 0 <= shr a k < 2 ^ (n - k).
Proof.
  intros Hk Ha. unfold shr.
  rewrite Z.shiftr_div_pow2 by lia.
  assert (0 < 2 ^ k) by (apply Z.pow_pos_nonneg; lia).
  split; [apply Z.div_pos; lia|].
  apply Z.div_lt_upper_bound; [assumption|].
  rewrite <- Z.pow_add_r by lia.
  replace (k + (n - k)) with n by lia. lia.
Qed.

(** On a byte, [b << 2] does not leave the range of [int]. *)
Lemma shl2_byte (b : Z) :
  is_byte b -> shl b 2 = Z.shiftl b 2 /\ 0 <= shl b 2 < 2 ^ 10.
Proof.
  unfold is_byte, shl. intros Hb.
  rewrite Z.shiftl_mul_pow2 by lia.
  change (2 ^ 2) with 4. change (2 ^ 10) with 1024.
  rewrite int32_small by lia. lia.
Qed.

Lemma decrypt_byte (b : Z) :
  is_byte b ->
  decrypt b = Z.lxor b 0x17 + 0x17 /\ 0 <= Z.lxor b 0x17 <= 255.
Proof.
  unfold is_byte. intros Hb.
  assert (Hx : 0 <= bxor b 0x17 < 2 ^ 8)
    by (apply bxor_below; change (2 ^ 8) with 256; lia).
  change (2 ^ 8) with 256 in Hx. unfold bxor in Hx.
  unfold decrypt, add, bxor.
  rewrite int32_small by lia. lia.
Qed.


(** ** The decrypt transform *)

(** C3, as the code has it: on every byte [b], [decrypt] returns
    [(b XOR 0x17) + 0x17] as an [int] that is not truncated to a byte,
    a value between 23 and 278; [decrypt(0x00)] is [0x2E] and
    [decrypt(0xFF)] is [0xFF]. *)
Theorem decrypt_not_truncated :
  (forall b, is_byte b ->
     decrypt b = Z.lxor b 0x17 + 0x17 /\ 23 <= decrypt b <= 278)
  /\ decrypt 0x00 = 0x2E
  /\ decrypt 0xFF = 0xFF.
Proof.
  split; [|split; reflexivity].
  intros b Hb.
  destruct (decrypt_byte b Hb) as [-> Hrange].
  split; [reflexivity|lia].
Qed.

Lemma decrypt_not_truncated_witness :
  is_byte 0xE8 /\ decrypt 0xE8 = Z.lxor 0xE8 0x17 + 0x17
  /\ 23 <= decrypt 0xE8 <= 278.
Proof.
  assert (Hb : is_byte 0xE8) by (unfold is_byte; lia).
  split; [exact Hb|].
  exact (proj1 decrypt_not_truncated 0xE8 Hb).
Defined.

(** C3, as the spec has it, fails: the byte [0xE8] is sent to 278 and
    not to [278 mod 256 = 22], and [0xFF] is sent to [0xFF], not to
    [0x0F]. *)
Lemma decrypt_mod256_counterexample :
  is_byte 0xE8
  /\ decrypt 0xE8 = 278
  /\ decrypt 0xE8 <> (Z.lxor 0xE8 0x17 + 0x17) mod 256
  /\ decrypt 0xFF <> 0x0F.
Proof.
  repeat split; try (vm_compute; congruence); vm_compute; discriminate.
Qed.

(** ** The decode *)

(** A field of [k .. n-1] bits cut out of any [int] by a mask below
    [2 ^ n] and a shift by [k]. *)
Lemma field_below (b mask k n : Z) :
  0 <= k <= n -> 0 <= mask < 2 ^ n ->
  0 <= shr (band b mask) k < 2 ^ (n - k).
Proof.
  intros Hk Hm. apply shr_below; [lia|]. apply band_below; lia.
Qed.

(** The low-order bits and the buttons that the last byte packs. *)
Lemma packed_fields (b5 : Z) :
  0 <= shr (band b5 0xc0) 6 < 4
  /\ 0 <= shr (band b5 0x30) 4 < 4
  /\ 0 <= shr (band b5 0x0c) 2 < 4
  /\ 0 <= shr (band b5 0x02) 1 < 2
  /\ 0 <= band b5 0x01 < 2.
Proof.
  pose proof (field_below b5 0xc0 6 8) as HX.
  pose proof (field_below b5 0x30 4 6) as HY.
  pose proof (field_below b5 0x0c 2 4) as HZ.
  pose proof (field_below b5 0x02 1 2) as HC.
  pose proof (band_below b5 0x01 1) as Hz.
  simpl in HX, HY, HZ, HC, Hz.
  lia.
Qed.

Lemma parseDeviceBuffer_bytes (b0 b1 b2 b3 b4 b5 : Z) :
  is_byte b2 -> is_byte b3 -> is_byte b4 ->
  parseDeviceBuffer [b0; b1; b2; b3; b4; b5] = Some (decoded b0 b1 b2 b3 b4 b5).
Proof.
  intros H2 H3 H4.
  destruct (shl2_byte b2 H2) as [E2 _].
  destruct (shl2_byte b3 H3) as [E3 _].
  destruct (shl2_byte b4 H4) as [E4 _].
  cbn [parseDeviceBuffer lookup list_lookup mbind option_bind].
  rewrite E2, E3, E4. reflexivity.
Qed.

(** The buffer has six cells, so the decode is defined whatever they
    hold. *)
Lemma parseDeviceBuffer_defined (b0 b1 b2 b3 b4 b5 : Z) :
  exists d, parseDeviceBuffer [b0; b1; b2; b3; b4; b5] = Some d
    /\ joystickPositionX d = b0
    /\ joystickPositionY d = b1
    /\ accelerationOnX d = bor (shl b2 2) (shr (band b5 0xc0) 6)
    /\ accelerationOnY d = bor (shl b3 2) (shr (band b5 0x30) 4)
    /\ accelerationOnZ d = bor (shl b4 2) (shr (band b5 0x0c) 2)
    /\ buttonCState d = shr (band b5 0x02) 1
    /\ buttonZState d = band b5 0x01.
Proof. eexists. split; [reflexivity|]. repeat split. Qed.

Lemma accel_range (hi lo : Z) :
  is_byte hi -> 0 <= lo < 4 -> 0 <= bor (shl hi 2) lo <= 1023.
Proof.
  intros Hhi Hlo.
  destruct (shl2_byte hi Hhi) as [_ Hs].
  assert (0 <= bor (shl hi 2) lo < 2 ^ 10).
  { apply bor_below; [lia|exact Hs|]. change (2 ^ 10) with 1024. lia. }
  change (2 ^ 10) with 1024 in *. lia.
Qed.

(** C5: on every frame of six bytes the decode is defined and has one
    result, whose three accelerations lie in 0..1023 and whose two
    button states are 0 or 1. *)
Theorem parseDeviceBuffer_total_ranges (b0 b1 b2 b3 b4 b5 : Z) :
  is_byte b0 -> is_byte b1 -> is_byte b2 ->
  is_byte b3 -> is_byte b4 -> is_byte b5 ->
  exists d,
    parseDeviceBuffer [b0; b1; b2; b3; b4; b5] = Some d
    /\ (forall d', parseDeviceBuffer [b0; b1; b2; b3; b4; b5] = Some d' -> d' = d)
    /\ 0 <= accelerationOnX d <= 1023
    /\ 0 <= accelerationOnY d <= 1023
    /\ 0 <= accelerationOnZ d <= 1023
    /\ (buttonCState d = 0 \/ buttonCState d = 1)
    /\ (buttonZState d = 0 \/ buttonZState d = 1).
Proof.
  intros _ _ H2 H3 H4 _.
  destruct (parseDeviceBuffer_defined b0 b1 b2 b3 b4 b5)
    as (d & Hd & _ & _ & HX & HY & HZ & HC & Hz).
  destruct (packed_fields b5) as (PX & PY & PZ & PC & Pz).
  exists d. split; [exact Hd|]. split; [congruence|].
  rewrite HX, HY, HZ, HC, Hz.
  repeat split; try (apply accel_range; assumption); lia.
Qed.

Lemma parseDeviceBuffer_total_ranges_witness :
  exists d,
    parseDeviceBuffer [0x80; 0x80; 0xFF; 0x00; 0x7F; 0xFD] = Some d
    /\ (forall d', parseDeviceBuffer [0x80; 0x80; 0xFF; 0x00; 0x7F; 0xFD] = Some d'
                   -> d' = d)
    /\ 0 <= accelerationOnX d <= 1023
    /\ 0 <= accelerationOnY d <= 1023
    /\ 0 <= accelerationOnZ d <= 1023
    /\ (buttonCState d = 0 \/ buttonCState d = 1)
    /\ (buttonZState d = 0 \/ buttonZState d = 1).
Proof.
  apply (parseDeviceBuffer_total_ranges 0x80 0x80 0xFF 0x00 0x7F 0xFD);
    unfold is_byte; lia.
Defined.

(** ** The driver on any device *)

Section DriverFacts.

Context {Dev : Type} `{WiringPi Dev}.

Implicit Types (s : State Dev) (w : World Dev).

Lemma after_nil s : after s (device (world s)) [] = s.
Proof.
  destruct s as [r [d t]]. unfold after, extend. simpl.
  rewrite app_nil_r. reflexivity.
Qed.

Lemma after_after s d events d' events' :
  after (after s d events) d' events' = after s d' (events ++ events').
Proof. unfold after, extend. simpl. rewrite app_assoc. reflexivity. Qed.

Lemma bind_returns {A B} (m : M A) (f : A -> M B) s a s' :
  m s = (Returns a, s') -> (m ≫= f) s = f a s'.
Proof. intros E. unfold mbind, M_bind. rewrite E. reflexivity. Qed.

Lemma callI2CRead_returns fd s :
  exists v d, callI2CRead fd s = (Returns v, after s d [I2CRead fd v]).
Proof.
  unfold callI2CRead, bus.
  destruct (wiringPiI2CRead fd (device (world s))) as [v d].
  exists v, d. reflexivity.
Qed.

Lemma callI2CWrite_returns fd data s :
  exists v d, callI2CWrite fd data s = (Returns v, after s d [I2CWrite fd data v]).
Proof.
  unfold callI2CWrite, bus.
  destruct (wiringPiI2CWrite fd data (device (world s))) as [v d].
  exists v, d. reflexivity.
Qed.

Lemma callI2CWriteReg8_returns fd reg data s :
  exists v d, callI2CWriteReg8 fd reg data s
              = (Returns v, after s d [I2CWriteReg8 fd reg data v]).
Proof.
  unfold callI2CWriteReg8, bus.
  destruct (wiringPiI2CWriteReg8 fd reg data (device (world s))) as [v d].
  exists v, d. reflexivity.
Qed.

Lemma sleep_for_returns n s :
  sleep_for n s = (Returns tt, after s (elapse n (device (world s))) [SleepFor n]).
Proof. reflexivity. Qed.

Lemma read_into_returns i (buffer : list Z) s :
  (i < length buffer)%nat ->
  exists v d,
    read_into i buffer s
    = (Returns (<[i:=v]> buffer),
       after s d [I2CRead (i2CPortFileDescriptor (this s)) v])
    /\ forall buffer' : list Z, (i < length buffer')%nat ->
         read_into i buffer' s
         = (Returns (<[i:=v]> buffer'),
            after s d [I2CRead (i2CPortFileDescriptor (this s)) v]).
Proof.
  intros Hi.
  destruct (callI2CRead_returns (i2CPortFileDescriptor (this s)) s)
    as (v & d & Hread).
  assert (Hany : forall l : list Z, (i < length l)%nat ->
            read_into i l s
            = (Returns (<[i:=v]> l),
               after s d [I2CRead (i2CPortFileDescriptor (this s)) v])).
  { intros l Hl. unfold read_into.
    erewrite bind_returns by reflexivity.
    erewrite bind_returns by exact Hread.
    unfold store. rewrite decide_True by lia. reflexivity. }
  exists v, d. split; [apply Hany; exact Hi|exact Hany].
Qed.

(** The loop, started at index [i] for [n] rounds on a buffer that has
    the cells [i .. i+n-1]: it returns, the [n] values read replace
    these cells in the order of the reads, and nothing else happens to
    the bus. *)
Lemma read_loop n : forall i (buffer : list Z) s,
  (i + n <= length buffer)%nat ->
  exists (rs : list Z) d,
    length rs = n
    /\ for_each (seq i n) read_into buffer s
       = (Returns (take i buffer ++ rs ++ drop (i + n) buffer),
          after s d (map (I2CRead (i2CPortFileDescriptor (this s))) rs)).
Proof.
  induction n as [|n IH]; intros i buffer s Hlen.
  - exists [], (device (world s)). split; [reflexivity|].
    simpl. rewrite Nat.add_0_r, take_drop, after_nil. reflexivity.
  - destruct (read_into_returns i buffer s) as (v & d & Hbody & _); [lia|].
    destruct (IH (S i) (<[i:=v]> buffer)
                 (after s d [I2CRead (i2CPortFileDescriptor (this s)) v]))
      as (rs & d' & Hrs & Hloop).
    { rewrite length_insert. lia. }
    exists (v :: rs), d'. split; [simpl; lia|].
    cbn [seq for_each].
    erewrite bind_returns by exact Hbody.
    rewrite Hloop, after_after. simpl this.
    f_equal. f_equal.
    rewrite (take_S_r _ _ v) by (apply list_lookup_insert_eq; lia).
    rewrite take_insert_ge by lia.
    rewrite drop_insert_lt by lia.
    rewrite <- app_assoc. simpl.
    rewrite Nat.add_succ_r. reflexivity.
Qed.

Lemma six_cells (rs : list Z) :
  length rs = 6%nat -> exists r0 r1 r2 r3 r4 r5, rs = [r0; r1; r2; r3; r4; r5].
Proof.
  intros Hlen.
  do 6 (destruct rs as [|? rs]; [discriminate Hlen|]).
  destruct rs; [|discriminate Hlen]. eauto 7.
Qed.

Lemma fetchDeviceBuffer_returns (readBuffer : list Z) s :
  length readBuffer = 6%nat ->
  exists written r0 r1 r2 r3 r4 r5 d,
    fetchDeviceBuffer readBuffer s
    = (Returns [r0; r1; r2; r3; r4; r5],
       after s d (fetch_events (this s) written [r0; r1; r2; r3; r4; r5])).
Proof.
  intros Hlen.
  destruct (callI2CWrite_returns (i2CPortFileDescriptor (this s)) 0x00 s)
    as (written & d1 & Hwrite).
  set (s1 := after s d1 [I2CWrite (i2CPortFileDescriptor (this s)) 0 written]) in *.
  set (s2 := after s1 (elapse (circuitAdaptationWaitMicrosecons (this s))
                              (device (world s1)))
                   [SleepFor (circuitAdaptationWaitMicrosecons (this s))]).
  destruct (read_loop 6 0 readBuffer s2) as (rs & d & Hrs & Hloop); [lia|].
  destruct (six_cells rs Hrs) as (r0 & r1 & r2 & r3 & r4 & r5 & ->).
  exists written, r0, r1, r2, r3, r4, r5, d.
  unfold fetchDeviceBuffer.
  erewrite bind_returns by reflexivity.
  erewrite bind_returns by exact Hwrite.
  erewrite bind_returns by reflexivity.
  erewrite bind_returns by apply sleep_for_returns.
  etransitivity; [exact Hloop|].
  rewrite take_0, drop_ge by lia.
  unfold s2, s1. rewrite !after_after, app_nil_r. reflexivity.
Qed.

(** [readRawData] on any reader, any device and any history: it
    returns, and what it returns is the decode of the six values that
    the six reads of its fetch returned. *)
Lemma readRawData_returns s :
  exists written r0 r1 r2 r3 r4 r5 d rawData,
    readRawData s
    = (Returns rawData,
       after s d (fetch_events (this s) written [r0; r1; r2; r3; r4; r5]))
    /\ parseDeviceBuffer [r0; r1; r2; r3; r4; r5] = Some rawData.
Proof.
  destruct (fetchDeviceBuffer_returns (replicate 6 0) s)
    as (written & r0 & r1 & r2 & r3 & r4 & r5 & d & Hfetch);
    [apply length_replicate|].
  destruct (parseDeviceBuffer_defined r0 r1 r2 r3 r4 r5) as (rawData & Hparse & _).
  exists written, r0, r1, r2, r3, r4, r5, d, rawData.
  split; [|exact Hparse].
  unfold readRawData.
  erewrite bind_returns by exact Hfetch.
  rewrite Hparse. reflexivity.
Qed.

(** The rounds of the loop write the cells [i .. i+n-1] only, so two
    buffers that agree on the other cells come out equal. *)
Lemma read_loop_agree n : forall i (buffer buffer' : list Z) s,
  (i + n <= length buffer)%nat -> length buffer' = length buffer ->
  take i buffer = take i buffer' ->
  drop (i + n) buffer = drop (i + n) buffer' ->
  for_each (seq i n) read_into buffer s
  = for_each (seq i n) read_into buffer' s.
Proof.
  induction n as [|n IH]; intros i buffer buffer' s Hlen Hlen' Htake Hdrop.
  - simpl. rewrite Nat.add_0_r in Hdrop.
    rewrite <- (take_drop i buffer), <- (take_drop i buffer').
    rewrite Htake, Hdrop. reflexivity.
  - destruct (read_into_returns i buffer s) as (v & d & Hbody & Hbody'); [lia|].
    cbn [seq for_each].
    erewrite !bind_returns by (first [exact Hbody | apply Hbody'; lia]).
    apply IH.
    + rewrite length_insert. lia.
    + rewrite !length_insert. exact Hlen'.
    + rewrite !(take_S_r _ _ v) by (apply list_lookup_insert_eq; lia).
      rewrite !take_insert_ge by lia. rewrite Htake. reflexivity.
    + rewrite !drop_insert_lt by lia.
      rewrite Nat.add_succ_r in Hdrop. exact Hdrop.
Qed.

(** The content of the local array before the fetch reaches no
    result. *)
Lemma fetchDeviceBuffer_overwrites (buffer buffer' : list Z) s :
  length buffer = 6%nat -> length buffer' = 6%nat ->
  fetchDeviceBuffer buffer s = fetchDeviceBuffer buffer' s.
Proof.
  intros Hlen Hlen'. unfold fetchDeviceBuffer, mbind, M_bind.
  destruct (member i2CPortFileDescriptor s) as [[fd| |] s0]; try reflexivity.
  destruct (callI2CWrite fd 0 s0) as [[?| |] s1]; try reflexivity.
  destruct (member circuitAdaptationWaitMicrosecons s1) as [[wait| |] s2];
    try reflexivity.
  destruct (sleep_for wait s2) as [[?| |] s3]; try reflexivity.
  apply read_loop_agree; try lia.
  - reflexivity.
  - rewrite !drop_ge by lia. reflexivity.
Qed.

(** *** The constructor *)

Lemma initI2C_cases s :
  exists fd d,
    wiringPiI2CSetup NUNCHUCK_I2C_ADDRESS (device (world s)) = (fd, d)
    /\ initI2C s
       = (if fd <? 0 then Throws TransportError else Returns tt,
          {| this := set_i2CPortFileDescriptor fd (this s);
             world := extend (world s) d [I2CSetup NUNCHUCK_I2C_ADDRESS fd] |}).
Proof.
  unfold initI2C, callI2CSetup, bus, mbind, M_bind.
  destruct (wiringPiI2CSetup NUNCHUCK_I2C_ADDRESS (device (world s))) as [fd d].
  exists fd, d. split; [reflexivity|].
  simpl. destruct (fd <? 0); reflexivity.
Qed.

Lemma initWithEncryption_returns s :
  exists written d,
    initWithEncryption s
    = (Returns tt,
       {| this := set_encyptedModeEnabled true (this s);
          world := extend (world s) d
            [I2CWriteReg8 (i2CPortFileDescriptor (this s)) 0x40 0x00 written;
             SleepFor (circuitAdaptationWaitMicrosecons (this s))] |}).
Proof.
  destruct (callI2CWriteReg8_returns (i2CPortFileDescriptor (this s)) 0x40 0x00 s)
    as (written & d & Hwrite).
  exists written, (elapse (circuitAdaptationWaitMicrosecons (this s)) d).
  unfold initWithEncryption.
  erewrite bind_returns by reflexivity.
  erewrite bind_returns by exact Hwrite.
  erewrite bind_returns by reflexivity.
  erewrite bind_returns by apply sleep_for_returns.
  unfold assign, after, extend. simpl. rewrite <- app_assoc. reflexivity.
Qed.

Lemma initWithoutEncryption_returns s :
  exists written1 written2 d,
    initWithoutEncryption s
    = (Returns tt,
       {| this := set_encyptedModeEnabled false (this s);
          world := extend (world s) d
            [I2CWriteReg8 (i2CPortFileDescriptor (this s)) 0xF0 0x55 written1;
             I2CWriteReg8 (i2CPortFileDescriptor (this s)) 0xFB 0x00 written2;
             SleepFor (circuitAdaptationWaitMicrosecons (this s))] |}).
Proof.
  destruct (callI2CWriteReg8_returns (i2CPortFileDescriptor (this s)) 0xF0 0x55 s)
    as (written1 & d1 & Hwrite1).
  set (s1 := after s d1
         [I2CWriteReg8 (i2CPortFileDescriptor (this s)) 0xF0 0x55 written1]) in *.
  destruct (callI2CWriteReg8_returns (i2CPortFileDescriptor (this s1)) 0xFB 0x00 s1)
    as (written2 & d2 & Hwrite2).
  exists written1, written2, (elapse (circuitAdaptationWaitMicrosecons (this s)) d2).
  unfold initWithoutEncryption.
  erewrite bind_returns by reflexivity.
  erewrite bind_returns by exact Hwrite1.
  erewrite bind_returns by reflexivity.
  erewrite bind_returns by exact Hwrite2.
  erewrite bind_returns by reflexivity.
  erewrite bind_returns by apply sleep_for_returns.
  unfold assign, s1, after, extend. simpl. rewrite <- !app_assoc. reflexivity.
Qed.

Lemma ctor_too_short wait mode s :
  wait < 300 ->
  NunchuckReader_ctor wait mode s = (Throws InvalidConfigurationError, s).
Proof.
  intros Hwait. unfold NunchuckReader_ctor, mbind, M_bind.
  replace (wait <? MINIMUN_CIRCUIT_ADAPTATION_WAIT_MICROSECONDS) with true
    by (symmetry; apply Z.ltb_lt; exact Hwait).
  reflexivity.
Qed.

(** The constructor up to its [switch], when the wait is long enough:
    the wait is stored and the bus is opened. *)
Lemma ctor_open wait mode s :
  300 <= wait ->
  exists fd d,
    wiringPiI2CSetup NUNCHUCK_I2C_ADDRESS (device (world s)) = (fd, d)
    /\ let opened :=
         {| this := set_i2CPortFileDescriptor fd
                      (set_circuitAdaptationWaitMicrosecons wait (this s));
            world := extend (world s) d [I2CSetup NUNCHUCK_I2C_ADDRESS fd] |} in
       NunchuckReader_ctor wait mode s
       = if fd <? 0 then (Throws TransportError, opened)
         else if mode =? ENCRYPTED then initWithEncryption opened
         else if mode =? NOT_ENCRYPTED then initWithoutEncryption opened
         else (Throws InvalidModeError, opened).
Proof.
  intros Hwait.
  set (s1 := {| this := set_circuitAdaptationWaitMicrosecons wait (this s);
                world := world s |}).
  destruct (initI2C_cases s1) as (fd & d & Hsetup & Hinit).
  exists fd, d. split; [exact Hsetup|].
  unfold NunchuckReader_ctor.
  replace (wait <? MINIMUN_CIRCUIT_ADAPTATION_WAIT_MICROSECONDS) with false
    by (symmetry; apply Z.ltb_ge; exact Hwait).
  erewrite bind_returns by reflexivity.
  erewrite bind_returns by reflexivity.
  fold s1. unfold mbind at 1, M_bind at 1. rewrite Hinit.
  destruct (fd <? 0); [reflexivity|].
  destruct (mode =? ENCRYPTED); [reflexivity|].
  destruct (mode =? NOT_ENCRYPTED); reflexivity.
Qed.



(** A constructor that returns was given one of the two modes and a
    wait of at least 300, and leaves the flag that goes with the mode. *)
Lemma construct_returns_flag wait mode storage w r w' :
  construct (NunchuckReader_ctor wait mode) storage w = (Returns r, w') ->
  300 <= wait
  /\ (mode = ENCRYPTED \/ mode = NOT_ENCRYPTED)
  /\ encyptedModeEnabled r = (mode =? ENCRYPTED)
  /\ circuitAdaptationWaitMicrosecons r = wait.
Proof.
  intros Hc. unfold construct in Hc.
  destruct (Z_lt_le_dec wait 300) as [Hlt|Hge].
  { rewrite ctor_too_short in Hc by exact Hlt. discriminate Hc. }
  destruct (ctor_open wait mode {| this := storage; world := w |} Hge)
    as (fd & d & _ & Hctor).
  cbv zeta in Hctor. rewrite Hctor in Hc. clear Hctor.
  destruct (fd <? 0); [discriminate Hc|].
  destruct (Z.eqb_spec mode ENCRYPTED) as [->|Hne].
  - match type of Hc with context [initWithEncryption ?o] =>
      destruct (initWithEncryption_returns o) as (written & d' & Hinit)
    end.
    rewrite Hinit in Hc. injection Hc as <- _. simpl. auto.
  - destruct (Z.eqb_spec mode NOT_ENCRYPTED) as [->|Hne']; [|discriminate Hc].
    match type of Hc with context [initWithoutEncryption ?o] =>
      destruct (initWithoutEncryption_returns o) as (w1 & w2 & d' & Hinit)
    end.
    rewrite Hinit in Hc. injection Hc as <- _. simpl. auto.
Qed.

(** *** The claims on the constructor *)

(** C7: a wait below 300 microseconds makes the constructor throw the
    configuration error and leaves the world as it was, with no bus
    call made; a wait of 300 does not throw that error; the constructor
    with one argument is the constructor with a wait of 500, which is
    the wait of the reader it builds. *)
Theorem constructor_minimum_wait :
  (forall wait mode storage w,
     wait < 300 ->
     construct (NunchuckReader_ctor wait mode) storage w
     = (Throws InvalidConfigurationError, w))
  /\ (forall mode storage w,
        fst (construct (NunchuckReader_ctor 300 mode) storage w)
        <> Throws InvalidConfigurationError)
  /\ (forall mode storage w,
        construct (NunchuckReader_ctor_default mode) storage w
        = construct (NunchuckReader_ctor 500 mode) storage w)
  /\ (forall mode storage w r w',
        construct (NunchuckReader_ctor_default mode) storage w = (Returns r, w') ->
        circuitAdaptationWaitMicrosecons r = 500).
Proof.
  split; [|split; [|split]].
  - intros wait mode storage w Hwait. unfold construct.
    rewrite ctor_too_short by exact Hwait. reflexivity.
  - intros mode storage w. unfold construct.
    destruct (ctor_open 300 mode {| this := storage; world := w |})
      as (fd & d & _ & Hctor); [lia|].
    cbv zeta in Hctor. rewrite Hctor. clear Hctor.
    destruct (fd <? 0); [simpl; discriminate|].
    destruct (mode =? ENCRYPTED).
    + match goal with |- context [initWithEncryption ?o] =>
        destruct (initWithEncryption_returns o) as (? & ? & ->)
      end. simpl. discriminate.
    + destruct (mode =? NOT_ENCRYPTED); [|simpl; discriminate].
      match goal with |- context [initWithoutEncryption ?o] =>
        destruct (initWithoutEncryption_returns o) as (? & ? & ? & ->)
      end. simpl. discriminate.
  - reflexivity.
  - intros mode storage w r w' Hc.
    apply construct_returns_flag in Hc. tauto.
Qed.


(** *** The claims on the reads *)

Lemma bind_member {A B} (field : NunchuckReader -> A) (k : A -> M B) s :
  (member field ≫= k) s = k (field (this s)) s.
Proof. reflexivity. Qed.

(** The bus calls of the fetch, with the answer and the next device
    read off the device functions. *)
Lemma callI2CWrite_run fd data s :
  let answer := wiringPiI2CWrite fd data (device (world s)) in
  callI2CWrite fd data s
  = (Returns (fst answer), after s (snd answer) [I2CWrite fd data (fst answer)]).
Proof.
  unfold callI2CWrite, bus. cbv zeta.
  destruct (wiringPiI2CWrite fd data (device (world s))). reflexivity.
Qed.

Lemma read_into_run i (buffer : list Z) s :
  (i < length buffer)%nat ->
  let answer :=
    wiringPiI2CRead (i2CPortFileDescriptor (this s)) (device (world s)) in
  read_into i buffer s
  = (Returns (<[i:=fst answer]> buffer),
     after s (snd answer)
       [I2CRead (i2CPortFileDescriptor (this s)) (fst answer)]).
Proof.
  intros Hi. cbv zeta.
  unfold read_into, callI2CRead, bus, member, store, mbind, M_bind.
  destruct (wiringPiI2CRead (i2CPortFileDescriptor (this s)) (device (world s))).
  rewrite decide_True by exact Hi. reflexivity.
Qed.

(** C9: [fetchDeviceBuffer] writes the byte zero once, waits the
    configured delay, then reads one byte six times; the six values
    read fill the cells 0 to 5 of the frame in the order of the reads.
    The value logged for the write is what [wiringPiI2CWrite] answered
    on the device as it was; the wait is what [elapse] does to the
    device the write left; each read is [wiringPiI2CRead] on the device
    that the step before it left, and the device after the fetch is the
    one the sixth read left.  The reader is left as it was. *)
Theorem fetchDeviceBuffer_sequence (readBuffer : list Z) s :
  length readBuffer = 6%nat ->
  let fd := i2CPortFileDescriptor (this s) in
  let wait := circuitAdaptationWaitMicrosecons (this s) in
  let request := wiringPiI2CWrite fd 0x00 (device (world s)) in
  let settled := elapse wait (snd request) in
  let read0 := wiringPiI2CRead fd settled in
  let read1 := wiringPiI2CRead fd (snd read0) in
  let read2 := wiringPiI2CRead fd (snd read1) in
  let read3 := wiringPiI2CRead fd (snd read2) in
  let read4 := wiringPiI2CRead fd (snd read3) in
  let read5 := wiringPiI2CRead fd (snd read4) in
  fetchDeviceBuffer readBuffer s
  = (Returns [fst read0; fst read1; fst read2; fst read3; fst read4; fst read5],
     {| this := this s;
        world :=
          {| device := snd read5;
             trace := trace (world s)
                      ++ [I2CWrite fd 0x00 (fst request); SleepFor wait;
                          I2CRead fd (fst read0); I2CRead fd (fst read1);
                          I2CRead fd (fst read2); I2CRead fd (fst read3);
                          I2CRead fd (fst read4); I2CRead fd (fst read5)] |} |}).
Proof.
  intros Hlen fd wait request settled read0 read1 read2 read3 read4 read5.
  do 6 (destruct readBuffer as [|? readBuffer]; [discriminate Hlen|]).
  destruct readBuffer; [|discriminate Hlen]. clear Hlen.
  pose (s1 := after s (snd request) [I2CWrite fd 0x00 (fst request)]).
  pose (s2 := after s1 settled [SleepFor wait]).
  pose (s3 := after s2 (snd read0) [I2CRead fd (fst read0)]).
  pose (s4 := after s3 (snd read1) [I2CRead fd (fst read1)]).
  pose (s5 := after s4 (snd read2) [I2CRead fd (fst read2)]).
  pose (s6 := after s5 (snd read3) [I2CRead fd (fst read3)]).
  pose (s7 := after s6 (snd read4) [I2CRead fd (fst read4)]).
  pose (s8 := after s7 (snd read5) [I2CRead fd (fst read5)]).
  assert (Hwrite : callI2CWrite fd 0x00 s = (Returns (fst request), s1))
    by exact (callI2CWrite_run fd 0x00 s).
  assert (Hsleep : sleep_for wait s1 = (Returns tt, s2))
    by exact (sleep_for_returns wait s1).
  assert (Hrun : forall i (buffer : list Z) (s' : State Dev),
            (i < length buffer)%nat ->
            read_into i buffer s'
            = (Returns (<[i:=fst (wiringPiI2CRead (i2CPortFileDescriptor (this s'))
                                    (device (world s')))]> buffer),
               after s'
                 (snd (wiringPiI2CRead (i2CPortFileDescriptor (this s'))
                         (device (world s'))))
                 [I2CRead (i2CPortFileDescriptor (this s'))
                    (fst (wiringPiI2CRead (i2CPortFileDescriptor (this s'))
                            (device (world s'))))]))
    by exact read_into_run.
  assert (H0 : forall buffer : list Z, (0 < length buffer)%nat ->
            read_into 0 buffer s2 = (Returns (<[0%nat:=fst read0]> buffer), s3))
    by exact (fun buffer => Hrun 0%nat buffer s2).
  assert (H1 : forall buffer : list Z, (1 < length buffer)%nat ->
            read_into 1 buffer s3 = (Returns (<[1%nat:=fst read1]> buffer), s4))
    by exact (fun buffer => Hrun 1%nat buffer s3).
  assert (H2 : forall buffer : list Z, (2 < length buffer)%nat ->
            read_into 2 buffer s4 = (Returns (<[2%nat:=fst read2]> buffer), s5))
    by exact (fun buffer => Hrun 2%nat buffer s4).
  assert (H3 : forall buffer : list Z, (3 < length buffer)%nat ->
            read_into 3 buffer s5 = (Returns (<[3%nat:=fst read3]> buffer), s6))
    by exact (fun buffer => Hrun 3%nat buffer s5).
  assert (H4 : forall buffer : list Z, (4 < length buffer)%nat ->
            read_into 4 buffer s6 = (Returns (<[4%nat:=fst read4]> buffer), s7))
    by exact (fun buffer => Hrun 4%nat buffer s6).
  assert (H5 : forall buffer : list Z, (5 < length buffer)%nat ->
            read_into 5 buffer s7 = (Returns (<[5%nat:=fst read5]> buffer), s8))
    by exact (fun buffer => Hrun 5%nat buffer s7).
  assert (Hend : s8
            = {| this := this s;
                 world :=
                   {| device := snd read5;
                      trace := trace (world s)
                               ++ [I2CWrite fd 0x00 (fst request); SleepFor wait;
                                   I2CRead fd (fst read0); I2CRead fd (fst read1);
                                   I2CRead fd (fst read2); I2CRead fd (fst read3);
                                   I2CRead fd (fst read4); I2CRead fd (fst read5)] |} |}).
  { clearbody request settled read0 read1 read2 read3 read4 read5 fd wait.
    unfold s8, s7, s6, s5, s4, s3, s2, s1, after, extend.
    cbn [this world device trace].
    rewrite <- !app_assoc. reflexivity. }
  clear Hrun.
  clearbody request settled read0 read1 read2 read3 read4 read5.
  rewrite <- Hend. clear Hend.
  unfold fetchDeviceBuffer.
  rewrite bind_member. fold fd.
  erewrite bind_returns by exact Hwrite.
  rewrite bind_member.
  erewrite bind_returns by exact Hsleep.
  cbn [seq for_each].
  erewrite bind_returns by (apply H0; simpl; lia).
  erewrite bind_returns by (apply H1; simpl; lia).
  erewrite bind_returns by (apply H2; simpl; lia).
  erewrite bind_returns by (apply H3; simpl; lia).
  erewrite bind_returns by (apply H4; simpl; lia).
  erewrite bind_returns by (apply H5; simpl; lia).
  reflexivity.
Qed.

(** C2, as the code has it: no result of a bus read makes [readRawData]
    fail.  On any device and from any state it returns; the six reads
    of its fetch are all made, and the reading it returns is the decode
    of the six values they returned, a negative value that reports a
    failed read included. *)
Theorem readRawData_never_throws s :
  let fd := i2CPortFileDescriptor (this s) in
  let wait := circuitAdaptationWaitMicrosecons (this s) in
  exists written r0 r1 r2 r3 r4 r5 d rawData,
    readRawData s
    = (Returns rawData,
       {| this := this s;
          world :=
            {| device := d;
               trace := trace (world s)
                        ++ [I2CWrite fd 0x00 written; SleepFor wait;
                            I2CRead fd r0; I2CRead fd r1; I2CRead fd r2;
                            I2CRead fd r3; I2CRead fd r4; I2CRead fd r5] |} |})
    /\ parseDeviceBuffer [r0; r1; r2; r3; r4; r5] = Some rawData.
Proof.
  intros fd wait.
  destruct (readRawData_returns s)
    as (written & r0 & r1 & r2 & r3 & r4 & r5 & d & rawData & Hread & Hparse).
  exists written, r0, r1, r2, r3, r4, r5, d, rawData.
  split; [exact Hread|exact Hparse].
Qed.

(** C6: [readDeviceValues] ends in the state in which the [readRawData]
    it calls ends, so it makes no bus call of its own, and the joystick,
    the accelerometer and the two buttons it returns hold the fields of
    that raw reading: the C button the state of C, the Z button the
    state of Z. *)
Theorem readDeviceValues_repackages s :
  exists rawData s',
    readRawData s = (Returns rawData, s')
    /\ readDeviceValues s
       = (Returns
            {| data_joystick :=
                 {| joystick_x := joystickPositionX rawData;
                    joystick_y := joystickPositionY rawData |};
               data_accelerometer :=
                 {| accelerometer_x := accelerationOnX rawData;
                    accelerometer_y := accelerationOnY rawData;
                    accelerometer_z := accelerationOnZ rawData |};
               data_buttonZ := {| button_state := buttonZState rawData |};
               data_buttonC := {| button_state := buttonCState rawData |} |},
          s').
Proof.
  destruct (readRawData_returns s)
    as (written & r0 & r1 & r2 & r3 & r4 & r5 & d & rawData & Hread & _).
  eexists rawData, _. split; [exact Hread|].
  unfold readDeviceValues.
  erewrite bind_returns by exact Hread. reflexivity.
Qed.

Lemma readDeviceValues_returns s :
  exists data s', readDeviceValues s = (Returns data, s') /\ this s' = this s.
Proof.
  destruct (readRawData_returns s)
    as (written & r0 & r1 & r2 & r3 & r4 & r5 & d & rawData & Hread & _).
  eexists _, _. unfold readDeviceValues.
  erewrite bind_returns by exact Hread. split; reflexivity.
Qed.

Lemma perform_keeps_this (c : Call) s :
  exists answer s', perform c s = (Returns answer, s') /\ this s' = this s.
Proof.
  destruct c; unfold perform.
  - exists (AnswerBool (encyptedModeEnabled (this s))), s. split; reflexivity.
  - destruct (readDeviceValues_returns s) as (data & s' & Hread & Hthis).
    exists (AnswerData data), s'. split; [|exact Hthis].
    erewrite bind_returns by exact Hread. reflexivity.
  - destruct (readRawData_returns s)
      as (written & r0 & r1 & r2 & r3 & r4 & r5 & d & rawData & Hread & _).
    eexists (AnswerRaw rawData), _. split.
    + erewrite bind_returns by exact Hread. reflexivity.
    + reflexivity.
Qed.

Lemma perform_all_keeps_this (calls : list Call) : forall s,
  exists answers s',
    perform_all calls s = (Returns answers, s')
    /\ length answers = length calls
    /\ this s' = this s.
Proof.
  induction calls as [|c calls IH]; intros s.
  - exists [], s. repeat split.
  - destruct (perform_keeps_this c s) as (a & s1 & Hc & Hthis1).
    destruct (IH s1) as (answers & s2 & Hrest & Hlen & Hthis2).
    exists (a :: answers), s2. cbn [perform_all].
    erewrite bind_returns by exact Hc.
    erewrite bind_returns by exact Hrest.
    repeat split; [simpl; congruence | congruence].
Qed.

(** C10: every call of [isEncryptedModeEnabled], [readDeviceValues] and
    [readRawData], in any number and order, returns and leaves the three
    members of the reader as they were; [isEncryptedModeEnabled] answers
    the flag and changes nothing; and for a reader that the constructor
    returned the answer is, after any such calls, whether the mode given
    to the constructor was [ENCRYPTED]. *)
Theorem reader_unchanged_by_reads :
  (forall calls s,
     exists answers s',
       perform_all calls s = (Returns answers, s') /\ this s' = this s)
  /\ (forall s,
        isEncryptedModeEnabled s = (Returns (encyptedModeEnabled (this s)), s))
  /\ (forall wait mode storage w r w',
        construct (NunchuckReader_ctor wait mode) storage w = (Returns r, w') ->
        encyptedModeEnabled r = (mode =? ENCRYPTED)
        /\ forall calls w2,
             exists answers s',
               perform_all calls {| this := r; world := w2 |} = (Returns answers, s')
               /\ this s' = r
               /\ isEncryptedModeEnabled s' = (Returns (mode =? ENCRYPTED), s')).
Proof.
  split; [|split].
  - intros calls s.
    destruct (perform_all_keeps_this calls s) as (answers & s' & Hp & _ & Hthis).
    exists answers, s'. split; assumption.
  - reflexivity.
  - intros wait mode storage w r w' Hc.
    apply construct_returns_flag in Hc. destruct Hc as (_ & _ & Hflag & _).
    split; [exact Hflag|].
    intros calls w2.
    destruct (perform_all_keeps_this calls {| this := r; world := w2 |})
      as (answers & s' & Hp & _ & Hthis).
    exists answers, s'. split; [exact Hp|]. split; [exact Hthis|].
    unfold isEncryptedModeEnabled, member. rewrite Hthis. simpl.
    rewrite Hflag. reflexivity.
Qed.

End DriverFacts.

(** ** The driver on the scripted device *)

(** C4: on every frame of six bytes the decode returns the two joystick
    bytes as they are, each acceleration as its byte shifted left by
    two or-ed with its two bits of the last byte, and the two buttons
    as the bits 1 and 0 of the last byte; a reader without encryption
    that fetches the frame [0x80, 0x80, 0x10, 0x20, 0x30, 0xC3] returns
    the acceleration 67 on X and 1 for both buttons. *)
Theorem parseDeviceBuffer_decodes :
  (forall b0 b1 b2 b3 b4 b5,
     is_byte b0 -> is_byte b1 -> is_byte b2 ->
     is_byte b3 -> is_byte b4 -> is_byte b5 ->
     parseDeviceBuffer [b0; b1; b2; b3; b4; b5]
     = Some {| joystickPositionX := b0;
               joystickPositionY := b1;
               accelerationOnX :=
                 Z.lor (Z.shiftl b2 2) (Z.shiftr (Z.land b5 0xC0) 6);
               accelerationOnY :=
                 Z.lor (Z.shiftl b3 2) (Z.shiftr (Z.land b5 0x30) 4);
               accelerationOnZ :=
                 Z.lor (Z.shiftl b4 2) (Z.shiftr (Z.land b5 0x0C) 2);
               buttonCState := Z.shiftr (Z.land b5 0x02) 1;
               buttonZState := Z.land b5 0x01 |})
  /\ (forall fd wait,
        exists rawData s',
          readRawData {| this := reader false fd wait;
                         world := fresh fd [0x80; 0x80; 0x10; 0x20; 0x30; 0xC3] |}
          = (Returns rawData, s')
          /\ accelerationOnX rawData = 67
          /\ buttonCState rawData = 1
          /\ buttonZState rawData = 1).
Proof.
  split.
  - intros b0 b1 b2 b3 b4 b5 _ _ H2 H3 H4 _.
    exact (parseDeviceBuffer_bytes b0 b1 b2 b3 b4 b5 H2 H3 H4).
  - intros fd wait. eexists _, _. split; [reflexivity|]. repeat split.
Qed.

Lemma parseDeviceBuffer_decodes_witness :
  parseDeviceBuffer [0x80; 0x80; 0x10; 0x20; 0x30; 0xC3]
  = Some {| joystickPositionX := 0x80;
            joystickPositionY := 0x80;
            accelerationOnX :=
              Z.lor (Z.shiftl 0x10 2) (Z.shiftr (Z.land 0xC3 0xC0) 6);
            accelerationOnY :=
              Z.lor (Z.shiftl 0x20 2) (Z.shiftr (Z.land 0xC3 0x30) 4);
            accelerationOnZ :=
              Z.lor (Z.shiftl 0x30 2) (Z.shiftr (Z.land 0xC3 0x0C) 2);
            buttonCState := Z.shiftr (Z.land 0xC3 0x02) 1;
            buttonZState := Z.land 0xC3 0x01 |}.
Proof.
  apply (proj1 parseDeviceBuffer_decodes 0x80 0x80 0x10 0x20 0x30 0xC3);
    unfold is_byte; lia.
Defined.

(** C1, where the code departs from it: a reader that the constructor
    initialised with encryption fetches six zero bytes and returns
    their decode as they are, all fields zero; the decode of the six
    decrypted bytes would be another reading. *)
Theorem readRawData_skips_decrypt :
  fst (construct (NunchuckReader_ctor 500 ENCRYPTED) (reader false 0 0)
         (fresh 3 [0; 0; 0; 0; 0; 0]))
  = Returns (reader true 3 500)
  /\ fst (readRawData {| this := reader true 3 500;
                         world := fresh 3 [0; 0; 0; 0; 0; 0] |})
     = Returns {| joystickPositionX := 0; joystickPositionY := 0;
                  accelerationOnX := 0; accelerationOnY := 0;
                  accelerationOnZ := 0;
                  buttonCState := 0; buttonZState := 0 |}
  /\ parseDeviceBuffer (map decrypt [0; 0; 0; 0; 0; 0])
     = Some {| joystickPositionX := 46; joystickPositionY := 46;
               accelerationOnX := 184; accelerationOnY := 186;
               accelerationOnZ := 187;
               buttonCState := 1; buttonZState := 0 |}.
Proof. repeat split. Qed.

(** C2, as the spec has it, fails: the third read of the fetch fails
    with [-1], and [readRawData] does not throw but returns a reading,
    in which the failure shows as the acceleration [-1] on X. *)
Lemma readRawData_failed_read_counterexample :
  let s := {| this := reader false 3 500;
              world := fresh 3 [0x80; 0x80; -1; 0x20; 0x30; 0xC3] |} in
  fst (readRawData s)
  = Returns {| joystickPositionX := 128; joystickPositionY := 128;
               accelerationOnX := -1; accelerationOnY := 128;
               accelerationOnZ := 192;
               buttonCState := 1; buttonZState := 1 |}
  /\ fst (readRawData s) <> Throws TransportError
  /\ trace (world (snd (readRawData s)))
     = [I2CWrite 3 0 0; SleepFor 500; I2CRead 3 128; I2CRead 3 128;
        I2CRead 3 (-1); I2CRead 3 32; I2CRead 3 48; I2CRead 3 195].
Proof. repeat split. discriminate. Qed.

Lemma constructor_minimum_wait_witness :
  299 < 300
  /\ construct (NunchuckReader_ctor 299 ENCRYPTED) (reader false 0 0) (fresh 3 [])
     = (Throws InvalidConfigurationError, fresh 3 []).
Proof.
  split; [lia|].
  apply (proj1 constructor_minimum_wait 299 ENCRYPTED (reader false 0 0)
           (fresh 3 [])).
  lia.
Defined.


Lemma fetchDeviceBuffer_sequence_witness :
  fetchDeviceBuffer (replicate 6 0)
    {| this := reader false 3 500; world := fresh 3 [1; 2; 3; 4; 5; 6; 7] |}
  = (Returns [1; 2; 3; 4; 5; 6],
     {| this := reader false 3 500;
        world :=
          {| device := {| setupResult := 3; incoming := [7] |};
             trace := [I2CWrite 3 0x00 0; SleepFor 500;
                       I2CRead 3 1; I2CRead 3 2; I2CRead 3 3;
                       I2CRead 3 4; I2CRead 3 5; I2CRead 3 6] |} |}).
Proof.
  exact (fetchDeviceBuffer_sequence (replicate 6 0)
           {| this := reader false 3 500;
              world := fresh 3 [1; 2; 3; 4; 5; 6; 7] |}
           eq_refl).
Defined.

Lemma reader_unchanged_by_reads_witness :
  encyptedModeEnabled (reader true 3 500) = (ENCRYPTED =? ENCRYPTED)
  /\ forall calls w2,
       exists answers s',
         perform_all calls {| this := reader true 3 500; world := w2 |}
         = (Returns answers, s')
         /\ this s' = reader true 3 500
         /\ isEncryptedModeEnabled s' = (Returns (ENCRYPTED =? ENCRYPTED), s').
Proof.
  apply (proj2 (proj2 reader_unchanged_by_reads) 500 ENCRYPTED (reader false 0 0)
           (fresh 3 []) (reader true 3 500)
           {| device := {| setupResult := 3; incoming := [] |};
              trace := [I2CSetup 0x52 3; I2CWriteReg8 3 0x40 0x00 0;
                        SleepFor 500] |}).
  reflexivity.
Defined.

(** * Further properties of the driver *)

(** ** The constructor's failures *)

Section ConstructorFacts.

Context {Dev : Type} `{WiringPi Dev}.

Implicit Types (s : State Dev) (w : World Dev).

(** The three checks of the constructor in the order in which it makes
    them: the wait, then the descriptor that the bus open returned,
    then the mode.  The constructor returns a reader exactly when all
    three pass, and the reader holds the flag of the mode, the
    descriptor and the wait, whatever the storage held before. *)
Theorem construct_decision wait mode storage w :
  fst (construct (NunchuckReader_ctor wait mode) storage w)
  = let fd := fst (wiringPiI2CSetup NUNCHUCK_I2C_ADDRESS (device w)) in
    if wait <? 300 then Throws InvalidConfigurationError
    else if fd <? 0 then Throws TransportError
    else if mode =? ENCRYPTED then Returns (reader true fd wait)
    else if mode =? NOT_ENCRYPTED then Returns (reader false fd wait)
    else Throws InvalidModeError.
Proof.
  cbv zeta. unfold construct.
  destruct (Z.ltb_spec wait 300) as [Hlt|Hge].
  { rewrite ctor_too_short by exact Hlt. reflexivity. }
  destruct (ctor_open wait mode {| this := storage; world := w |} Hge)
    as (fd & d & Hsetup & Hctor).
  simpl in Hsetup. cbv zeta in Hctor. rewrite Hctor, Hsetup. clear Hctor.
  simpl fst at 2 3 4.
  destruct (fd <? 0); [reflexivity|].
  destruct (mode =? ENCRYPTED).
  - match goal with |- context [initWithEncryption ?o] =>
      destruct (initWithEncryption_returns o) as (? & ? & ->)
    end. reflexivity.
  - destruct (mode =? NOT_ENCRYPTED); [|reflexivity].
    match goal with |- context [initWithoutEncryption ?o] =>
      destruct (initWithoutEncryption_returns o) as (? & ? & ? & ->)
    end. reflexivity.
Qed.

(** When the bus open fails (the setup returns a negative descriptor),
    the constructor throws having made the setup call and nothing else:
    no register is written and no wait is made, whatever the mode. *)
Theorem setup_failure_stops_constructor wait mode storage w fd d0 :
  300 <= wait ->
  wiringPiI2CSetup NUNCHUCK_I2C_ADDRESS (device w) = (fd, d0) ->
  fd < 0 ->
  construct (NunchuckReader_ctor wait mode) storage w
  = (Throws TransportError,
     {| device := d0; trace := trace w ++ [I2CSetup 0x52 fd] |}).
Proof.
  intros Hwait Hsetup Hfd. unfold construct.
  destruct (ctor_open wait mode {| this := storage; world := w |} Hwait)
    as (fd' & d' & Hsetup' & Hctor).
  simpl in Hsetup'. rewrite Hsetup in Hsetup'. injection Hsetup' as <- <-.
  cbv zeta in Hctor. rewrite Hctor.
  replace (fd <? 0) with true by (symmetry; apply Z.ltb_lt; exact Hfd).
  reflexivity.
Qed.

(** A mode that is neither enumerator is rejected only after the bus
    has been opened: the constructor throws with the setup call made,
    the descriptor obtained, and nothing written to the device. *)
Theorem invalid_mode_after_open wait mode storage w fd d0 :
  300 <= wait ->
  wiringPiI2CSetup NUNCHUCK_I2C_ADDRESS (device w) = (fd, d0) ->
  0 <= fd ->
  mode <> ENCRYPTED -> mode <> NOT_ENCRYPTED ->
  construct (NunchuckReader_ctor wait mode) storage w
  = (Throws InvalidModeError,
     {| device := d0; trace := trace w ++ [I2CSetup 0x52 fd] |}).
Proof.
  intros Hwait Hsetup Hfd Hne Hne'. unfold construct.
  destruct (ctor_open wait mode {| this := storage; world := w |} Hwait)
    as (fd' & d' & Hsetup' & Hctor).
  simpl in Hsetup'. rewrite Hsetup in Hsetup'. injection Hsetup' as <- <-.
  cbv zeta in Hctor. rewrite Hctor.
  replace (fd <? 0) with false by (symmetry; apply Z.ltb_ge; exact Hfd).
  destruct (Z.eqb_spec mode ENCRYPTED); [contradiction|].
  destruct (Z.eqb_spec mode NOT_ENCRYPTED); [contradiction|].
  reflexivity.
Qed.

(** The constructor reads no member before it has assigned it: what
    the storage of the object held before the construction reaches
    neither the outcome nor the bus. *)
Theorem construct_ignores_storage wait mode storage storage' w :
  construct (NunchuckReader_ctor wait mode) storage w
  = construct (NunchuckReader_ctor wait mode) storage' w.
Proof.
  unfold construct, NunchuckReader_ctor, initI2C, initWithEncryption,
    initWithoutEncryption, callI2CSetup, callI2CWriteReg8, bus, sleep_for,
    assign, member, throw, mbind, M_bind, mret, M_ret.
  destruct (wait <? MINIMUN_CIRCUIT_ADAPTATION_WAIT_MICROSECONDS);
    [reflexivity|].
  simpl.
  destruct (wiringPiI2CSetup NUNCHUCK_I2C_ADDRESS (device w)) as [fd d0].
  simpl. destruct (fd <? 0); [reflexivity|].
  destruct (mode =? ENCRYPTED).
  - simpl. destruct (wiringPiI2CWriteReg8 fd 64 0 d0) as [? ?]. reflexivity.
  - destruct (mode =? NOT_ENCRYPTED); [|reflexivity].
    simpl. destruct (wiringPiI2CWriteReg8 fd 240 85 d0) as [? d1].
    simpl. destruct (wiringPiI2CWriteReg8 fd 251 0 d1) as [? ?]. reflexivity.
Qed.

End ConstructorFacts.

(** ** The decrypt transform and the decode, as arithmetic *)

(** [decrypt] loses nothing on bytes: subtracting [0x17] and xor-ing
    with [0x17] gives the byte back, so two bytes with one image are
    one byte. *)
Theorem decrypt_invertible :
  (forall b, is_byte b -> bxor (decrypt b - 0x17) 0x17 = b)
  /\ (forall b b', is_byte b -> is_byte b' -> decrypt b = decrypt b' -> b = b').
Proof.
  assert (Hinv : forall b, is_byte b -> bxor (decrypt b - 0x17) 0x17 = b).
  { intros b Hb. destruct (decrypt_byte b Hb) as [-> _]. unfold bxor.
    replace (Z.lxor b 23 + 23 - 23) with (Z.lxor b 23) by lia.
    rewrite Z.lxor_assoc, Z.lxor_nilpotent, Z.lxor_0_r. reflexivity. }
  split; [exact Hinv|].
  intros b b' Hb Hb' Heq.
  rewrite <- (Hinv b Hb), <- (Hinv b' Hb'), Heq. reflexivity.
Qed.

Lemma decrypt_invertible_witness :
  is_byte 0xE8 /\ bxor (decrypt 0xE8 - 0x17) 0x17 = 0xE8.
Proof.
  assert (Hb : is_byte 0xE8) by (unfold is_byte; lia).
  split; [exact Hb|]. exact (proj1 decrypt_invertible 0xE8 Hb).
Defined.

(** A field cut out of a byte by a mask of [n] ones at bit [k] is the
    quotient by [2 ^ k] reduced modulo [2 ^ n]. *)
Lemma field_div_mod (b k n : Z) :
  0 <= k -> 0 <= n ->
  shr (band b (Z.shiftl (Z.ones n) k)) k = (b / 2 ^ k) mod 2 ^ n.
Proof.
  intros Hk Hn. unfold shr, band.
  rewrite Z.shiftr_land, Z.shiftr_shiftl_l by lia.
  rewrite Z.sub_diag, Z.shiftl_0_r.
  rewrite Z.land_ones by lia.
  rewrite Z.shiftr_div_pow2 by lia. reflexivity.
Qed.

(** Or-ing two low bits into a byte shifted left by two adds them. *)
Lemma bor_shl2_add (hi lo : Z) :
  is_byte hi -> 0 <= lo < 4 -> bor (shl hi 2) lo = 4 * hi + lo.
Proof.
  intros Hhi Hlo.
  destruct (shl2_byte hi Hhi) as [-> _]. unfold bor.
  assert (Hdisjoint : Z.land (Z.shiftl hi 2) lo = 0).
  { apply Z.bits_inj'. intros k Hk.
    rewrite Z.land_spec, Z.bits_0.
    destruct (Z_lt_le_dec k 2) as [Hlt|Hge].
    - rewrite Z.shiftl_spec_low by lia. reflexivity.
    - rewrite (bits_of_below_pow2 lo 2 k) by (simpl; lia).
      apply andb_false_r. }
  rewrite <- Z.lxor_lor by exact Hdisjoint.
  rewrite <- Z.add_nocarry_lxor by exact Hdisjoint.
  rewrite Z.shiftl_mul_pow2 by lia. simpl. lia.
Qed.

Lemma decode_arithmetic (b0 b1 b2 b3 b4 b5 : Z) :
  is_byte b2 -> is_byte b3 -> is_byte b4 -> is_byte b5 ->
  exists d,
    parseDeviceBuffer [b0; b1; b2; b3; b4; b5] = Some d
    /\ joystickPositionX d = b0
    /\ joystickPositionY d = b1
    /\ accelerationOnX d = 4 * b2 + b5 / 64
    /\ accelerationOnY d = 4 * b3 + (b5 / 16) mod 4
    /\ accelerationOnZ d = 4 * b4 + (b5 / 4) mod 4
    /\ buttonCState d = (b5 / 2) mod 2
    /\ buttonZState d = b5 mod 2.
Proof.
  intros H2 H3 H4 H5.
  destruct (parseDeviceBuffer_defined b0 b1 b2 b3 b4 b5)
    as (d & Hd & H0 & H1 & HX & HY & HZ & HC & Hz).
  destruct (packed_fields b5) as (PX & PY & PZ & _ & _).
  exists d. split; [exact Hd|]. split; [exact H0|]. split; [exact H1|].
  rewrite HX, HY, HZ, HC, Hz.
  rewrite !bor_shl2_add by assumption.
  assert (FX : shr (band b5 0xc0) 6 = (b5 / 64) mod 4)
    by (apply (field_div_mod b5 6 2); lia).
  assert (FY : shr (band b5 0x30) 4 = (b5 / 16) mod 4)
    by (apply (field_div_mod b5 4 2); lia).
  assert (FZ : shr (band b5 0x0c) 2 = (b5 / 4) mod 4)
    by (apply (field_div_mod b5 2 2); lia).
  assert (FC : shr (band b5 0x02) 1 = (b5 / 2) mod 2)
    by (apply (field_div_mod b5 1 1); lia).
  assert (Fz : band b5 0x01 = b5 mod 2).
  { pose proof (field_div_mod b5 0 1) as F.
    unfold shr in F. rewrite Z.shiftr_0_r in F.
    rewrite Z.div_1_r in F. apply F; lia. }
  rewrite FX, FY, FZ, FC, Fz in *.
  unfold is_byte in H5.
  repeat split; try reflexivity.
  f_equal. apply Z.mod_small. split; [apply Z.div_pos; lia|].
  apply Z.div_lt_upper_bound; lia.
Qed.

(** The decode of a frame of bytes, read as arithmetic: each
    acceleration is four times its byte plus its two bits of the last
    byte (the bits 7-6 for X, 5-4 for Y, 3-2 for Z), and the buttons C
    and Z are the bits 1 and 0 of the last byte. *)
Theorem parseDeviceBuffer_arithmetic (b0 b1 b2 b3 b4 b5 : Z) :
  is_byte b2 -> is_byte b3 -> is_byte b4 -> is_byte b5 ->
  exists d,
    parseDeviceBuffer [b0; b1; b2; b3; b4; b5] = Some d
    /\ joystickPositionX d = b0
    /\ joystickPositionY d = b1
    /\ accelerationOnX d = 4 * b2 + b5 / 64
    /\ accelerationOnY d = 4 * b3 + (b5 / 16) mod 4
    /\ accelerationOnZ d = 4 * b4 + (b5 / 4) mod 4
    /\ buttonCState d = (b5 / 2) mod 2
    /\ buttonZState d = b5 mod 2.
Proof. exact (decode_arithmetic b0 b1 b2 b3 b4 b5). Qed.

Lemma parseDeviceBuffer_arithmetic_witness :
  exists d,
    parseDeviceBuffer [0x80; 0x80; 0x10; 0x20; 0x30; 0xC3] = Some d
    /\ joystickPositionX d = 0x80
    /\ joystickPositionY d = 0x80
    /\ accelerationOnX d = 4 * 0x10 + 0xC3 / 64
    /\ accelerationOnY d = 4 * 0x20 + (0xC3 / 16) mod 4
    /\ accelerationOnZ d = 4 * 0x30 + (0xC3 / 4) mod 4
    /\ buttonCState d = (0xC3 / 2) mod 2
    /\ buttonZState d = 0xC3 mod 2.
Proof.
  apply (parseDeviceBuffer_arithmetic 0x80 0x80 0x10 0x20 0x30 0xC3);
    unfold is_byte; lia.
Defined.

(** A byte is the sum of the five fields that the decode cuts out of
    the last cell of a frame. *)
Lemma byte_fields (b : Z) :
  is_byte b ->
  b = 64 * (b / 64) + 16 * ((b / 16) mod 4) + 4 * ((b / 4) mod 4)
      + 2 * ((b / 2) mod 2) + b mod 2
  /\ 0 <= b / 64 < 4
  /\ 0 <= (b / 16) mod 4 < 4
  /\ 0 <= (b / 4) mod 4 < 4.
Proof.
  unfold is_byte. intros Hb.
  Z.div_mod_to_equations. lia.
Qed.

(** The decode keeps the whole frame: two frames of bytes with one
    reading are one frame. *)
Theorem parseDeviceBuffer_injective (b0 b1 b2 b3 b4 b5 c0 c1 c2 c3 c4 c5 : Z) :
  is_byte b2 -> is_byte b3 -> is_byte b4 -> is_byte b5 ->
  is_byte c2 -> is_byte c3 -> is_byte c4 -> is_byte c5 ->
  parseDeviceBuffer [b0; b1; b2; b3; b4; b5]
  = parseDeviceBuffer [c0; c1; c2; c3; c4; c5] ->
  [b0; b1; b2; b3; b4; b5] = [c0; c1; c2; c3; c4; c5].
Proof.
  intros Hb2 Hb3 Hb4 Hb5 Hc2 Hc3 Hc4 Hc5 Heq.
  destruct (decode_arithmetic b0 b1 b2 b3 b4 b5 Hb2 Hb3 Hb4 Hb5)
    as (d & Hd & B0 & B1 & BX & BY & BZ & BC & Bz).
  destruct (decode_arithmetic c0 c1 c2 c3 c4 c5 Hc2 Hc3 Hc4 Hc5)
    as (d' & Hd' & C0 & C1 & CX & CY & CZ & CC & Cz).
  rewrite Hd, Hd' in Heq. injection Heq as <-.
  assert (b0 = c0) by congruence.
  assert (b1 = c1) by congruence.
  assert (EX : 4 * b2 + b5 / 64 = 4 * c2 + c5 / 64) by congruence.
  assert (EY : 4 * b3 + (b5 / 16) mod 4 = 4 * c3 + (c5 / 16) mod 4) by congruence.
  assert (EZ : 4 * b4 + (b5 / 4) mod 4 = 4 * c4 + (c5 / 4) mod 4) by congruence.
  assert (EC : (b5 / 2) mod 2 = (c5 / 2) mod 2) by congruence.
  assert (Ez : b5 mod 2 = c5 mod 2) by congruence.
  destruct (byte_fields b5 Hb5) as (Fb & Fb6 & Fb4 & Fb2).
  destruct (byte_fields c5 Hc5) as (Fc & Fc6 & Fc4 & Fc2).
  assert (b5 = c5 /\ b2 = c2 /\ b3 = c3 /\ b4 = c4) as (-> & -> & -> & ->)
    by lia.
  subst. reflexivity.
Qed.

Lemma parseDeviceBuffer_injective_witness :
  [0x80; 0x80; 0x10; 0x20; 0x30; 0xC3] = [0x80; 0x80; 0x10; 0x20; 0x30; 0xC3].
Proof.
  apply (parseDeviceBuffer_injective 0x80 0x80 0x10 0x20 0x30 0xC3
                                     0x80 0x80 0x10 0x20 0x30 0xC3);
    try (unfold is_byte; lia).
  reflexivity.
Defined.

(** ** Failed reads in the decode *)

(** A read that failed leaves a negative value in its cell.  In the
    last cell it cannot be told from a byte: whatever [int] the last
    cell holds, the buttons are 0 or 1 and, the three acceleration
    cells being bytes, the accelerations lie in 0..1023. *)
Theorem last_cell_never_out_of_range (b0 b1 b2 b3 b4 b5 : Z) :
  is_byte b2 -> is_byte b3 -> is_byte b4 ->
  exists d,
    parseDeviceBuffer [b0; b1; b2; b3; b4; b5] = Some d
    /\ 0 <= accelerationOnX d <= 1023
    /\ 0 <= accelerationOnY d <= 1023
    /\ 0 <= accelerationOnZ d <= 1023
    /\ (buttonCState d = 0 \/ buttonCState d = 1)
    /\ (buttonZState d = 0 \/ buttonZState d = 1).
Proof.
  intros H2 H3 H4.
  destruct (parseDeviceBuffer_defined b0 b1 b2 b3 b4 b5)
    as (d & Hd & _ & _ & HX & HY & HZ & HC & Hz).
  destruct (packed_fields b5) as (PX & PY & PZ & PC & Pz).
  exists d. split; [exact Hd|].
  rewrite HX, HY, HZ, HC, Hz.
  repeat split; try (apply accel_range; assumption); lia.
Qed.

Lemma last_cell_never_out_of_range_witness :
  exists d,
    parseDeviceBuffer [0x80; 0x80; 0x10; 0x20; 0x30; -1] = Some d
    /\ 0 <= accelerationOnX d <= 1023
    /\ 0 <= accelerationOnY d <= 1023
    /\ 0 <= accelerationOnZ d <= 1023
    /\ (buttonCState d = 0 \/ buttonCState d = 1)
    /\ (buttonZState d = 0 \/ buttonZState d = 1).
Proof.
  apply (last_cell_never_out_of_range 0x80 0x80 0x10 0x20 0x30 (-1));
    unfold is_byte; lia.
Defined.




(** ** What the reads depend on, and what they do to the bus *)

Section ReadFacts.

Context {Dev : Type} `{WiringPi Dev}.

Implicit Types (s : State Dev) (w : World Dev).

(** Two states with one world and one descriptor run a round of the
    loop in lock step. *)
Lemma read_into_lockstep i (buffer : list Z) s1 s2 :
  world s1 = world s2 ->
  i2CPortFileDescriptor (this s1) = i2CPortFileDescriptor (this s2) ->
  (i < length buffer)%nat ->
  exists w',
    read_into i buffer s1
    = (fst (read_into i buffer s1), {| this := this s1; world := w' |})
    /\ read_into i buffer s2
       = (fst (read_into i buffer s1), {| this := this s2; world := w' |})
    /\ exists v, fst (read_into i buffer s1) = Returns (<[i:=v]> buffer).
Proof.
  intros Hw Hfd Hi.
  unfold read_into, callI2CRead, bus, member, store, mbind, M_bind.
  rewrite <- Hw, <- Hfd.
  destruct (wiringPiI2CRead (i2CPortFileDescriptor (this s1)) (device (world s1)))
    as [v d].
  rewrite decide_True by lia.
  eexists. split; [reflexivity|]. split; [reflexivity|].
  exists v. reflexivity.
Qed.

Lemma read_loop_lockstep n : forall i (buffer : list Z) s1 s2,
  world s1 = world s2 ->
  i2CPortFileDescriptor (this s1) = i2CPortFileDescriptor (this s2) ->
  (i + n <= length buffer)%nat ->
  exists frame w',
    for_each (seq i n) read_into buffer s1
    = (Returns frame, {| this := this s1; world := w' |})
    /\ for_each (seq i n) read_into buffer s2
       = (Returns frame, {| this := this s2; world := w' |}).
Proof.
  induction n as [|n IH]; intros i buffer s1 s2 Hw Hfd Hlen.
  - exists buffer, (world s1). simpl. split.
    + destruct s1; reflexivity.
    + rewrite Hw. destruct s2; reflexivity.
  - destruct (read_into_lockstep i buffer s1 s2 Hw Hfd) as (w1 & E1 & E2 & v & Ev);
      [lia|].
    rewrite Ev in E1, E2.
    destruct (IH (S i) (<[i:=v]> buffer)
                 {| this := this s1; world := w1 |}
                 {| this := this s2; world := w1 |})
      as (frame & w' & L1 & L2);
      [reflexivity | exact Hfd | rewrite length_insert; lia |].
    exists frame, w'. cbn [seq for_each].
    erewrite !bind_returns by (first [exact E1 | exact E2]).
    split; [exact L1|exact L2].
Qed.

(** [readRawData] depends on the reader through the descriptor and the
    wait only. *)
Lemma readRawData_lockstep s1 s2 :
  world s1 = world s2 ->
  i2CPortFileDescriptor (this s1) = i2CPortFileDescriptor (this s2) ->
  circuitAdaptationWaitMicrosecons (this s1)
  = circuitAdaptationWaitMicrosecons (this s2) ->
  exists rawData w',
    readRawData s1 = (Returns rawData, {| this := this s1; world := w' |})
    /\ readRawData s2 = (Returns rawData, {| this := this s2; world := w' |}).
Proof.
  intros Hw Hfd Hwait.
  destruct (callI2CWrite_returns (i2CPortFileDescriptor (this s1)) 0x00 s1)
    as (written & d & Hwrite1).
  assert (Hwrite2 : callI2CWrite (i2CPortFileDescriptor (this s2)) 0x00 s2
                    = (Returns written,
                       after s2 d [I2CWrite (i2CPortFileDescriptor (this s2))
                                     0x00 written])).
  { revert Hwrite1. unfold callI2CWrite, bus, after, extend.
    rewrite <- Hw, <- Hfd.
    destruct (wiringPiI2CWrite (i2CPortFileDescriptor (this s1)) 0
                (device (world s1))) as [x dx].
    intros E. injection E as -> ->. reflexivity. }
  set (a1 := after s1 d [I2CWrite (i2CPortFileDescriptor (this s1)) 0 written])
    in *.
  set (a2 := after s2 d [I2CWrite (i2CPortFileDescriptor (this s2)) 0 written])
    in *.
  set (wait := circuitAdaptationWaitMicrosecons (this s1)).
  set (t1 := after a1 (elapse wait (device (world a1))) [SleepFor wait]).
  set (t2 := after a2 (elapse wait (device (world a2))) [SleepFor wait]).
  assert (Hwt : world t1 = world t2).
  { unfold t1, t2, a1, a2, after, extend. simpl. rewrite <- Hw, <- Hfd.
    reflexivity. }
  destruct (read_loop_lockstep 6 0 (replicate 6 0) t1 t2 Hwt Hfd)
    as (frame & w' & L1 & L2); [rewrite length_replicate; lia|].
  assert (F1 : fetchDeviceBuffer (replicate 6 0) s1
               = (Returns frame, {| this := this s1; world := w' |})).
  { unfold fetchDeviceBuffer.
    erewrite bind_returns by reflexivity.
    erewrite bind_returns by exact Hwrite1.
    erewrite bind_returns by reflexivity.
    erewrite bind_returns by apply sleep_for_returns.
    exact L1. }
  assert (F2 : fetchDeviceBuffer (replicate 6 0) s2
               = (Returns frame, {| this := this s2; world := w' |})).
  { unfold fetchDeviceBuffer.
    erewrite bind_returns by reflexivity.
    erewrite bind_returns by exact Hwrite2.
    erewrite bind_returns by reflexivity.
    erewrite bind_returns by apply sleep_for_returns.
    fold a2. simpl this. rewrite <- Hwait. exact L2. }
  destruct (fetchDeviceBuffer_returns (replicate 6 0) s1)
    as (wr' & q0 & q1 & q2 & q3 & q4 & q5 & dq & Hq);
    [apply length_replicate|].
  rewrite F1 in Hq. injection Hq as Hframe _. subst frame.
  destruct (parseDeviceBuffer_defined q0 q1 q2 q3 q4 q5) as (rawData & Hparse & _).
  exists rawData, w'. unfold readRawData.
  erewrite (bind_returns _ _ s1) by exact F1.
  erewrite (bind_returns _ _ s2) by exact F2.
  rewrite Hparse. split; reflexivity.
Qed.

(** The encryption flag reaches neither what [readRawData] returns nor
    what it does to the bus: with the flag set, cleared or as it is, the
    reading and the world after the call are the same. *)
Theorem readRawData_ignores_flag (flag : bool) s :
  let s' := {| this := set_encyptedModeEnabled flag (this s);
               world := world s |} in
  fst (readRawData s') = fst (readRawData s)
  /\ world (snd (readRawData s')) = world (snd (readRawData s)).
Proof.
  intros s'.
  destruct (readRawData_lockstep s s') as (rawData & w' & E & E');
    [reflexivity | reflexivity | reflexivity |].
  rewrite E, E'. split; reflexivity.
Qed.

Lemma readDeviceValues_fetches s :
  exists written r0 r1 r2 r3 r4 r5 d rawData,
    readDeviceValues s
    = (Returns
         (Build_NunchuckData
            (Build_NunchuckJoystick (joystickPositionX rawData)
                                    (joystickPositionY rawData))
            (Build_NunchuckAccelerometer (accelerationOnX rawData)
                                         (accelerationOnY rawData)
                                         (accelerationOnZ rawData))
            (Build_NunchuckButton (buttonZState rawData))
            (Build_NunchuckButton (buttonCState rawData))),
       after s d (fetch_events (this s) written [r0; r1; r2; r3; r4; r5]))
    /\ parseDeviceBuffer [r0; r1; r2; r3; r4; r5] = Some rawData.
Proof.
  destruct (readRawData_returns s)
    as (written & r0 & r1 & r2 & r3 & r4 & r5 & d & rawData & Hread & Hparse).
  exists written, r0, r1, r2, r3, r4, r5, d, rawData.
  split; [|exact Hparse].
  unfold readDeviceValues.
  erewrite bind_returns by exact Hread. reflexivity.
Qed.

(** What one call does to the bus: nothing, or one fetch. *)
Lemma perform_fetches (c : Call) s :
  exists answer d events,
    perform c s = (Returns answer, after s d events)
    /\ if is_read c
       then exists written rs,
              length rs = 6%nat /\ events = fetch_events (this s) written rs
       else events = [].
Proof.
  destruct c; unfold perform; simpl is_read.
  - exists (AnswerBool (encyptedModeEnabled (this s))), (device (world s)), [].
    rewrite after_nil. split; reflexivity.
  - destruct (readDeviceValues_fetches s)
      as (written & r0 & r1 & r2 & r3 & r4 & r5 & d & rawData & Hread & _).
    eexists (AnswerData _), d, _. split.
    + erewrite bind_returns by exact Hread. reflexivity.
    + exists written, [r0; r1; r2; r3; r4; r5]. split; reflexivity.
  - destruct (readRawData_returns s)
      as (written & r0 & r1 & r2 & r3 & r4 & r5 & d & rawData & Hread & _).
    eexists (AnswerRaw rawData), d, _. split.
    + erewrite bind_returns by exact Hread. reflexivity.
    + exists written, [r0; r1; r2; r3; r4; r5]. split; reflexivity.
Qed.

(** After the construction the driver only fetches.  Whatever calls a
    client makes, and in whatever order, they all return and the trace
    grows by one fetch (the request byte, the wait, six reads on the
    descriptor of the reader) for each [readRawData] and each
    [readDeviceValues], and by nothing else: no call opens the bus
    again or writes a register, and [isEncryptedModeEnabled] makes no
    bus call at all. *)
Theorem calls_only_fetch (calls : list Call) : forall s,
  exists answers s' (fetches : list (Z * list Z)),
    perform_all calls s = (Returns answers, s')
    /\ trace (world s')
       = trace (world s)
         ++ concat (map (fun f => fetch_events (this s) (fst f) (snd f)) fetches)
    /\ length fetches = length (List.filter is_read calls)
    /\ Forall (fun f => length (snd f) = 6%nat) fetches.
Proof.
  induction calls as [|c calls IH]; intros s.
  - exists [], s, []. simpl. rewrite app_nil_r. repeat split. constructor.
  - destruct (perform_fetches c s) as (a & d & events & Hc & Hevents).
    destruct (IH (after s d events))
      as (answers & s' & fetches & Hrest & Htrace & Hlen & Hsix).
    simpl in Htrace. rewrite <- app_assoc in Htrace.
    cbn [perform_all List.filter].
    destruct (is_read c).
    + destruct Hevents as (written & rs & Hrs & ->).
      exists (a :: answers), s', ((written, rs) :: fetches).
      erewrite bind_returns by exact Hc.
      erewrite bind_returns by exact Hrest.
      split; [reflexivity|]. split; [exact Htrace|].
      split; [simpl; congruence|]. constructor; assumption.
    + subst events.
      exists (a :: answers), s', fetches.
      erewrite bind_returns by exact Hc.
      erewrite bind_returns by exact Hrest.
      split; [reflexivity|]. split; [exact Htrace|].
      split; assumption.
Qed.

(** When the six reads of its fetch return bytes, [readDeviceValues]
    returns a joystick that holds the first two of them, an
    accelerometer whose three values lie in 0..1023 and two buttons
    whose states are 0 or 1. *)
Theorem readDeviceValues_ranges s data s' written r0 r1 r2 r3 r4 r5 :
  readDeviceValues s = (Returns data, s') ->
  trace (world s')
  = trace (world s) ++ fetch_events (this s) written [r0; r1; r2; r3; r4; r5] ->
  is_byte r0 -> is_byte r1 -> is_byte r2 ->
  is_byte r3 -> is_byte r4 -> is_byte r5 ->
  joystick_x (data_joystick data) = r0
  /\ joystick_y (data_joystick data) = r1
  /\ 0 <= accelerometer_x (data_accelerometer data) <= 1023
  /\ 0 <= accelerometer_y (data_accelerometer data) <= 1023
  /\ 0 <= accelerometer_z (data_accelerometer data) <= 1023
  /\ (button_state (data_buttonC data) = 0 \/ button_state (data_buttonC data) = 1)
  /\ (button_state (data_buttonZ data) = 0 \/ button_state (data_buttonZ data) = 1).
Proof.
  intros Hcall Htrace _ _ H2 H3 H4 _.
  destruct (readDeviceValues_fetches s)
    as (written' & q0 & q1 & q2 & q3 & q4 & q5 & d & rawData & Hread & Hparse).
  rewrite Hread in Hcall. injection Hcall as <- <-.
  simpl in Htrace. apply app_inv_head in Htrace.
  injection Htrace as _ -> -> -> -> -> ->.
  destruct (parseDeviceBuffer_defined r0 r1 r2 r3 r4 r5)
    as (d' & Hd' & J0 & J1 & HX & HY & HZ & HC & Hz).
  rewrite Hparse in Hd'. injection Hd' as <-.
  destruct (packed_fields r5) as (PX & PY & PZ & PC & Pz).
  simpl. rewrite J0, J1, HX, HY, HZ, HC, Hz.
  repeat split; try (apply accel_range; assumption); lia.
Qed.

End ReadFacts.

(** ** Constructed readers *)

Section ConstructedFacts.

Context {Dev : Type} `{WiringPi Dev}.

Implicit Types (s : State Dev) (w : World Dev).

Lemma construct_returns_descriptor wait mode storage w r w' :
  construct (NunchuckReader_ctor wait mode) storage w = (Returns r, w') ->
  0 <= i2CPortFileDescriptor r
  /\ i2CPortFileDescriptor r
     = fst (wiringPiI2CSetup NUNCHUCK_I2C_ADDRESS (device w)).
Proof.
  intros Hc.
  destruct (construct_returns_flag wait mode storage w r w' Hc)
    as (Hwait & _ & _ & _).
  unfold construct in Hc.
  destruct (ctor_open wait mode {| this := storage; world := w |} Hwait)
    as (fd & d & Hsetup & Hctor).
  simpl in Hsetup. rewrite Hsetup. simpl fst.
  cbv zeta in Hctor. rewrite Hctor in Hc. clear Hctor.
  destruct (Z.ltb_spec fd 0) as [Hneg|Hpos]; [discriminate Hc|].
  destruct (mode =? ENCRYPTED).
  - match type of Hc with context [initWithEncryption ?o] =>
      destruct (initWithEncryption_returns o) as (? & ? & Hinit)
    end.
    rewrite Hinit in Hc. injection Hc as <- _. simpl. lia.
  - destruct (mode =? NOT_ENCRYPTED); [|discriminate Hc].
    match type of Hc with context [initWithoutEncryption ?o] =>
      destruct (initWithoutEncryption_returns o) as (? & ? & ? & Hinit)
    end.
    rewrite Hinit in Hc. injection Hc as <- _. simpl. lia.
Qed.

(** A reader that the constructor returned holds a descriptor that is
    not negative, the one the bus open returned, and the wait given to
    the constructor, which is at least 300; in every read it makes, in
    whatever world, that wait lies between the request byte and the
    first of the six reads, all made on that descriptor. *)
Theorem constructed_reader_waits wait mode storage w r w' :
  construct (NunchuckReader_ctor wait mode) storage w = (Returns r, w') ->
  0 <= i2CPortFileDescriptor r
  /\ i2CPortFileDescriptor r
     = fst (wiringPiI2CSetup NUNCHUCK_I2C_ADDRESS (device w))
  /\ 300 <= wait
  /\ forall w2,
       exists written r0 r1 r2 r3 r4 r5 d rawData,
         let fd := i2CPortFileDescriptor r in
         readRawData {| this := r; world := w2 |}
         = (Returns rawData,
            {| this := r;
               world :=
                 {| device := d;
                    trace := trace w2
                             ++ [I2CWrite fd 0x00 written; SleepFor wait;
                                 I2CRead fd r0; I2CRead fd r1; I2CRead fd r2;
                                 I2CRead fd r3; I2CRead fd r4; I2CRead fd r5] |} |}).
Proof.
  intros Hc.
  destruct (construct_returns_descriptor wait mode storage w r w' Hc)
    as (Hfd & Hfd').
  destruct (construct_returns_flag wait mode storage w r w' Hc)
    as (Hwait & _ & _ & Hr).
  split; [exact Hfd|]. split; [exact Hfd'|]. split; [exact Hwait|].
  intros w2.
  destruct (readRawData_returns {| this := r; world := w2 |})
    as (written & r0 & r1 & r2 & r3 & r4 & r5 & d & rawData & Hread & _).
  exists written, r0, r1, r2, r3, r4, r5, d, rawData.
  cbv zeta. rewrite Hread. unfold after, extend, fetch_events. simpl.
  rewrite Hr. reflexivity.
Qed.

End ConstructedFacts.

(** ** The further properties on the scripted device *)

Lemma setup_failure_stops_constructor_witness :
  construct (NunchuckReader_ctor 500 ENCRYPTED) (reader false 0 0) (fresh (-1) [])
  = (Throws TransportError,
     {| device := {| setupResult := -1; incoming := [] |};
        trace := [I2CSetup 0x52 (-1)] |}).
Proof.
  apply (setup_failure_stops_constructor 500 ENCRYPTED (reader false 0 0)
           (fresh (-1) []) (-1) {| setupResult := -1; incoming := [] |}).
  - lia.
  - reflexivity.
  - lia.
Defined.

Lemma invalid_mode_after_open_witness :
  construct (NunchuckReader_ctor 500 7) (reader false 0 0) (fresh 3 [])
  = (Throws InvalidModeError,
     {| device := {| setupResult := 3; incoming := [] |};
        trace := [I2CSetup 0x52 3] |}).
Proof.
  apply (invalid_mode_after_open 500 7 (reader false 0 0) (fresh 3 []) 3
           {| setupResult := 3; incoming := [] |}).
  - lia.
  - reflexivity.
  - lia.
  - discriminate.
  - discriminate.
Defined.

Lemma readDeviceValues_ranges_witness :
  let data :=
    {| data_joystick := {| joystick_x := 128; joystick_y := 128 |};
       data_accelerometer :=
         {| accelerometer_x := 67; accelerometer_y := 128;
            accelerometer_z := 192 |};
       data_buttonZ := {| button_state := 1 |};
       data_buttonC := {| button_state := 1 |} |} in
  joystick_x (data_joystick data) = 0x80
  /\ joystick_y (data_joystick data) = 0x80
  /\ 0 <= accelerometer_x (data_accelerometer data) <= 1023
  /\ 0 <= accelerometer_y (data_accelerometer data) <= 1023
  /\ 0 <= accelerometer_z (data_accelerometer data) <= 1023
  /\ (button_state (data_buttonC data) = 0 \/ button_state (data_buttonC data) = 1)
  /\ (button_state (data_buttonZ data) = 0 \/ button_state (data_buttonZ data) = 1).
Proof.
  intros data.
  apply (readDeviceValues_ranges
           {| this := reader false 3 500;
              world := fresh 3 [0x80; 0x80; 0x10; 0x20; 0x30; 0xC3] |}
           data
           {| this := reader false 3 500;
              world :=
                {| device := {| setupResult := 3; incoming := [] |};
                   trace := fetch_events (reader false 3 500) 0
                              [0x80; 0x80; 0x10; 0x20; 0x30; 0xC3] |} |}
           0 0x80 0x80 0x10 0x20 0x30 0xC3);
    try (unfold is_byte; lia); reflexivity.
Defined.

Lemma constructed_reader_waits_witness :
  0 <= i2CPortFileDescriptor (reader false 3 300)
  /\ i2CPortFileDescriptor (reader false 3 300)
     = fst (wiringPiI2CSetup NUNCHUCK_I2C_ADDRESS (device (fresh 3 [])))
  /\ 300 <= 300
  /\ forall w2,
       exists written r0 r1 r2 r3 r4 r5 d rawData,
         let fd := i2CPortFileDescriptor (reader false 3 300) in
         readRawData {| this := reader false 3 300; world := w2 |}
         = (Returns rawData,
            {| this := reader false 3 300;
               world :=
                 {| device := d;
                    trace := trace w2
                             ++ [I2CWrite fd 0x00 written; SleepFor 300;
                                 I2CRead fd r0; I2CRead fd r1; I2CRead fd r2;
                                 I2CRead fd r3; I2CRead fd r4; I2CRead fd r5] |} |}).
Proof.
  apply (constructed_reader_waits 300 NOT_ENCRYPTED (reader true 9 9)
           (fresh 3 []) (reader false 3 300)
           {| device := {| setupResult := 3; incoming := [] |};
              trace := [I2CSetup 0x52 3; I2CWriteReg8 3 0xF0 0x55 0;
                        I2CWriteReg8 3 0xFB 0x00 0; SleepFor 300] |}).
  reflexivity.
Defined.
